(** * Swappify: the realtime conversation layer

    A shallow embedding of [src/hooks/useRealtimeChat.ts] (the
    [useRealtimeChat] hook) and of the [handleSendMessage] handler of the
    chat page, together with a reference model of the store the hook talks
    to.  The hook's React state, the toasts, the console and the store are
    one explicit state that every operation threads through. *)

From Stdlib Require Import ZArith List Ascii String Sorting.Permutation.
From stdpp Require Import base option list gmap strings pretty.

Open Scope string_scope.
Open Scope Z_scope.
Open Scope list_scope.

(** ** JavaScript strings *)

(** Identifiers (user, request, skill and message ids) are only compared and
    tested for truthiness, so they are [string]s.  Message content is
    measured and trimmed, so it is kept as JavaScript has it: a sequence of
    UTF-16 code units. *)

Definition code_unit := N.
Definition text := list code_unit.

(** [String.prototype.trim] strips WhiteSpace and LineTerminator code
    points (ECMA-262, 22.1.3.32 and tables 35 and 36). *)
Definition is_js_whitespace (c : code_unit) : bool :=
  ((9 <=? c) && (c <=? 13) || (c =? 32) || (c =? 160) || (c =? 5760)
   || (8192 <=? c) && (c <=? 8202) || (c =? 8232) || (c =? 8233)
   || (c =? 8239) || (c =? 8287) || (c =? 12288) || (c =? 65279))%N.

Fixpoint trimStart (s : text) : text :=
  match s with
  | c :: s' => if is_js_whitespace c then trimStart s' else s
  | [] => []
  end.

Definition trimEnd (s : text) : text := rev (trimStart (rev s)).

Definition trim (s : text) : text := trimEnd (trimStart s).

(** [s.length] *)
Definition text_length (s : text) : Z := Z.of_nat (length s).

(** Truthiness of a string: every string but the empty one. *)
Definition truthy_text (s : text) : bool :=
  match s with [] => false | _ => true end.

Definition truthy (s : string) : bool :=
  match s with EmptyString => false | _ => true end.

(** Truthiness of a [string | null | undefined]. *)
Definition truthy_opt (o : option string) : bool :=
  match o with Some s => truthy s | None => false end.

(** [a || b] on a nullable string with a string default. *)
Definition or_default (o : option string) (d : string) : string :=
  match o with
  | Some s => if truthy s then s else d
  | None => d
  end.

(** Code units of an ASCII literal, for examples. *)
Definition text_of (s : string) : text :=
  map (fun a => N_of_ascii a) (list_ascii_of_string s).

(** Timestamps are ISO strings in the client and [timestamptz] in the store;
    only their order is used, so they are integers. *)
Definition timestamp := Z.

(** ** Records *)

Module Message.
(** [interface Message]; a row of the [messages] table. *)
Record t := mk {
  id : string;
  sender_id : string;
  content : text;
  created_at : timestamp;
  barter_request_id : option string
}.
End Message.

Module Conversation.
(** [interface Conversation] *)
Record t := mk {
  id : string;
  participant_id : string;
  participant_name : string;
  participant_avatar : string;
  lastMessage : option text;
  lastMessageTime : option timestamp;
  barter_request_id : option string
}.
End Conversation.

Module BarterRequest.
(** A row of the [barter_requests] table, with the columns the hook
    reads or writes. *)
Record t := mk {
  id : string;
  requester_id : string;
  requested_skill_id : string;
  offered_skill_id : string;
  status : string;
  updated_at : timestamp
}.

Definition touch (ts : timestamp) (r : t) : t :=
  mk (id r) (requester_id r) (requested_skill_id r) (offered_skill_id r)
     (status r) ts.
End BarterRequest.

Module Skill.
(** A row of [skills]: the hook reads only the owner through the
    [barter_requests_requested_skill_id_fkey] join. *)
Record t := mk { id : string; user_id : string }.
End Skill.

Module Profile.
(** A row of the [profiles_public] view, as selected:
    [id, full_name, avatar_url]. *)
Record t := mk {
  id : string;
  full_name : option string;
  avatar_url : option string
}.
End Profile.

Module RequestRow.
(** One element of the [barterRequests] array: the request with the
    embedded [skills] object ([null] when the requested skill does not
    resolve). *)
Record t := mk {
  request : BarterRequest.t;
  skills : option Skill.t
}.
End RequestRow.

(** [a === b] on strings, and on a possibly [undefined] left operand. *)
Definition str_eq (a b : string) : bool := bool_decide (a = b).

Definition opt_str_eq (o : option string) (b : string) : bool :=
  match o with Some a => str_eq a b | None => false end.

(** ** The store *)

(** The store is an external collaborator.  It is modelled by a reference
    store: every table is the list of its rows in insertion order,
    [.order(col)] is a sort on the column (insertion sort here, which puts
    rows with equal keys in table order; the store itself promises no order
    among them), and an oracle decides for
    every call whether the store fails it (unreachable, refused by a policy
    or by a constraint); a failed call changes nothing.  Generated ids come
    from a generator the store owns.  The clocks ([server_now] here,
    [client_now] in the client) are read by the operations and advanced by
    nobody: the time that passes between two operations is the
    environment's to set. *)

Section Ordering.
  Context {A : Type} (key : A -> Z).

Fixpoint insert_asc (x : A) (l : list A) : list A :=
  match l with
  | [] => [x]
  | y :: l' => if key x <=? key y then x :: l else y :: insert_asc x l'
  end.

(** [.order(col, { ascending: true })] *)
Definition order_asc (l : list A) : list A := foldr insert_asc [] l.

Fixpoint insert_desc (x : A) (l : list A) : list A :=
  match l with
  | [] => [x]
  | y :: l' => if key y <=? key x then x :: l else y :: insert_desc x l'
  end.

(** [.order(col, { ascending: false })] *)
Definition order_desc (l : list A) : list A := foldr insert_desc [] l.

(** Non-decreasing by [key]. *)
Fixpoint ascending (l : list A) : bool :=
  match l with
  | x :: (y :: _) as l' => (key x <=? key y) && ascending l'
  | _ => true
  end.

End Ordering.

Inductive StoreError :=
| StoreUnreachable     (* the call did not go through *)
| NotSingleRow.        (* PGRST116: [.single()] / [.maybeSingle()] row count *)

(** A supabase response [{ data, error }]: exactly one of the two is set. *)
Inductive Response (A : Type) :=
| Data (a : A)
| Error (e : StoreError).
Arguments Data {A} a.
Arguments Error {A} e.

Definition data {A} (r : Response A) : option A :=
  match r with Data a => Some a | Error _ => None end.

Definition error {A} (r : Response A) : option StoreError :=
  match r with Data _ => None | Error e => Some e end.

(** [.single()]: exactly one row, else an error. *)
Definition single {A} (rows : list A) : Response A :=
  match rows with
  | [a] => Data a
  | _ => Error NotSingleRow
  end.

(** [.maybeSingle()]: the result must be zero or one row; [null] data on
    no row, the row on one row, and on more than one row an error with
    [null] data. *)
Definition maybeSingle {A} (rows : list A) : Response (option A) :=
  match rows with
  | [] => Data None
  | [a] => Data (Some a)
  | _ => Error NotSingleRow
  end.

(** The calls the hook makes, as they reach the store. *)
Inductive StoreCall :=
| SelectBarterRequests
| SelectProfile (user : string)
| SelectLastMessage (request : string)
| SelectMessages (request : string)
| InsertMessage (request sender : string) (content : text)
| UpdateBarterRequest (request : string) (updated_at : timestamp)
| SelectRequestOf (requester : string)
| InsertBarterRequest (requester requested_skill offered_skill status : string).

Record Store := mkStore {
  skills : list Skill.t;
  barter_requests : list BarterRequest.t;
  profiles_public : list Profile.t;
  messages_table : list Message.t;
  server_now : timestamp;          (* the store's [now()] *)
  uuid : nat -> string;            (* the store's id generator *)
  minted : nat;                    (* ids generated so far *)
  faults : list bool;              (* per call, in order: does it fail? *)
  trace : list StoreCall           (* calls received, oldest first *)
}.

Definition set_barter_requests (l : list BarterRequest.t) (s : Store) : Store :=
  mkStore (skills s) l (profiles_public s) (messages_table s) (server_now s)
          (uuid s) (minted s) (faults s) (trace s).

Definition set_messages_table (l : list Message.t) (s : Store) : Store :=
  mkStore (skills s) (barter_requests s) (profiles_public s) l (server_now s)
          (uuid s) (minted s) (faults s) (trace s).

Definition set_minted (n : nat) (s : Store) : Store :=
  mkStore (skills s) (barter_requests s) (profiles_public s)
          (messages_table s) (server_now s) (uuid s) n (faults s) (trace s).

(** Does the oracle fail the next call? *)
Definition failing (s : Store) : bool :=
  match faults s with true :: _ => true | _ => false end.

(** The store after it received call [c]: the call is in the trace and the
    oracle has moved on. *)
Definition served (c : StoreCall) (s : Store) : Store :=
  mkStore (skills s) (barter_requests s) (profiles_public s)
          (messages_table s) (server_now s) (uuid s) (minted s)
          (tail (faults s)) (trace s ++ [c]).

(** One call: it is logged, the oracle is consulted, and unless the oracle
    fails it the query [sem] runs on the tables. *)
Definition rpc {A} (c : StoreCall) (sem : Store -> Response A * Store)
    (s : Store) : Response A * Store :=
  if failing s then (Error StoreUnreachable, served c s)
  else sem (served c s).

(** The [skills!barter_requests_requested_skill_id_fkey(user_id)] embed. *)
Definition join_skill (s : Store) (r : BarterRequest.t) : RequestRow.t :=
  RequestRow.mk r
    (find (fun k => str_eq (Skill.id k) (BarterRequest.requested_skill_id r))
          (skills s)).

Definition request_rows (s : Store) : list RequestRow.t :=
  order_desc (fun row => BarterRequest.updated_at (RequestRow.request row))
             (map (join_skill s) (barter_requests s)).

Definition thread_rows (s : Store) (rid : string) : list Message.t :=
  filter (fun m => Message.barter_request_id m = Some rid) (messages_table s).

Definition select_barter_requests : Store -> Response (list RequestRow.t) * Store :=
  rpc SelectBarterRequests (fun s => (Data (request_rows s), s)).

Definition select_profile (uid : string) : Store -> Response Profile.t * Store :=
  rpc (SelectProfile uid)
      (fun s => (single (filter (fun p => Profile.id p = uid) (profiles_public s)), s)).

Definition select_last_message (rid : string)
  : Store -> Response (option Message.t) * Store :=
  rpc (SelectLastMessage rid)
      (fun s => (maybeSingle (take 1 (order_desc Message.created_at (thread_rows s rid))), s)).

Definition select_messages (rid : string)
  : Store -> Response (list Message.t) * Store :=
  rpc (SelectMessages rid)
      (fun s => (Data (order_asc Message.created_at (thread_rows s rid)), s)).

Definition insert_message (rid sender : string) (content : text)
  : Store -> Response unit * Store :=
  rpc (InsertMessage rid sender content)
      (fun s =>
         let row := Message.mk (uuid s (minted s)) sender content
                               (server_now s) (Some rid) in
         (Data tt,
          set_minted (S (minted s))
            (set_messages_table (messages_table s ++ [row]) s))).

Definition update_barter_request (rid : string) (ts : timestamp)
  : Store -> Response unit * Store :=
  rpc (UpdateBarterRequest rid ts)
      (fun s =>
         (Data tt,
          set_barter_requests
            (map (fun r => if str_eq (BarterRequest.id r) rid
                           then BarterRequest.touch ts r else r)
                 (barter_requests s)) s)).

(** [.select('id').eq('requester_id', uid).maybeSingle()] *)
Definition select_request_of (uid : string)
  : Store -> Response (option string) * Store :=
  rpc (SelectRequestOf uid)
      (fun s =>
         (maybeSingle
            (map BarterRequest.id
               (filter (fun r => BarterRequest.requester_id r = uid)
                       (barter_requests s))), s)).

(** [.insert({...}).select('id').single()] *)
Definition insert_barter_request (requester requested offered status : string)
  : Store -> Response string * Store :=
  rpc (InsertBarterRequest requester requested offered status)
      (fun s =>
         let row := BarterRequest.mk (uuid s (minted s)) requester requested
                                     offered status (server_now s) in
         (Data (BarterRequest.id row),
          set_minted (S (minted s))
            (set_barter_requests (barter_requests s ++ [row]) s))).

(** ** The client state *)

(** The [useState] cells of [useRealtimeChat]. *)
Record Hook := mkHook {
  conversations : list Conversation.t;
  messages : gmap string (list Message.t);
  currentUserId : option string;
  loading : bool
}.

(** The [useState] cells of the chat page that [handleSendMessage] reads. *)
Record Page := mkPage {
  selectedConversation : option string;
  message : text
}.

Record State := mkState {
  store : Store;
  hook : Hook;
  page : Page;
  client_now : timestamp;                  (* [new Date()] *)
  toasts : list string;                    (* [toast.error] calls *)
  console : list (string * StoreError)     (* [console.error] calls *)
}.

Inductive Result (A : Type) :=
| Returned (a : A)
| Thrown (e : StoreError).
Arguments Returned {A} a.
Arguments Thrown {A} e.

(** Operations thread the whole state. *)
Definition M (A : Type) : Type := State -> A * State.

Definition ret {A} (a : A) : M A := fun st => (a, st).

Definition bind {A B} (m : M A) (k : A -> M B) : M B :=
  fun st => let '(a, st') := m st in k a st'.

Notation "x <~ m ;; k" := (bind m (fun x => k))
  (at level 100, m at next level, right associativity).
Notation "m ;;; k" := (bind m (fun _ => k))
  (at level 100, right associativity).

Definition with_store (s : Store) (st : State) : State :=
  mkState s (hook st) (page st) (client_now st) (toasts st) (console st).

Definition call {A} (f : Store -> Response A * Store) : M (Response A) :=
  fun st => let '(r, s') := f (store st) in (r, with_store s' st).

Definition set_hook (h : Hook) : M unit :=
  fun st => (tt, mkState (store st) h (page st) (client_now st) (toasts st)
                         (console st)).

Definition setConversations (l : list Conversation.t) : M unit :=
  fun st =>
    let h := hook st in
    set_hook (mkHook l (messages h) (currentUserId h) (loading h)) st.

Definition setMessages
    (f : gmap string (list Message.t) -> gmap string (list Message.t)) : M unit :=
  fun st =>
    let h := hook st in
    set_hook (mkHook (conversations h) (f (messages h)) (currentUserId h)
                     (loading h)) st.

Definition setLoading (b : bool) : M unit :=
  fun st =>
    let h := hook st in
    set_hook (mkHook (conversations h) (messages h) (currentUserId h) b) st.

Definition setMessage (s : text) : M unit :=
  fun st => (tt, mkState (store st) (hook st)
                         (mkPage (selectedConversation (page st)) s)
                         (client_now st) (toasts st) (console st)).

Definition toast_error (msg : string) : M unit :=
  fun st => (tt, mkState (store st) (hook st) (page st) (client_now st)
                         (toasts st ++ [msg]) (console st)).

Definition console_error (label : string) (e : StoreError) : M unit :=
  fun st => (tt, mkState (store st) (hook st) (page st) (client_now st)
                         (toasts st) (console st ++ [(label, e)])).

(** ** [fetchConversations] *)

(** The body of the [for (const request of barterRequests || [])] loop;
    [convList.push] is the append. *)
Definition conversation_step (currentUserId : string) (request : RequestRow.t)
    (convList : list Conversation.t) : M (list Conversation.t) :=
  let req := RequestRow.request request in
  let owner := Skill.user_id <$> RequestRow.skills request in
  let isRequester := str_eq (BarterRequest.requester_id req) currentUserId in
  let isSkillOwner := opt_str_eq owner currentUserId in
  if negb isRequester && negb isSkillOwner then ret convList else
  let otherUserId :=
    if isRequester then owner else Some (BarterRequest.requester_id req) in
  match otherUserId with
  | Some other =>
      if negb (truthy other) then ret convList else
      profile <~ call (select_profile other) ;;
      lastMsg <~ call (select_last_message (BarterRequest.id req)) ;;
      match data profile with
      | Some p =>
          let last := mjoin (data lastMsg) in
          ret (convList ++
               [Conversation.mk (BarterRequest.id req)
                  (Profile.id p)
                  (or_default (Profile.full_name p) "Unknown User")
                  (or_default (Profile.avatar_url p) "")
                  (Message.content <$> last)
                  (Message.created_at <$> last)
                  (Some (BarterRequest.id req))])
      | None => ret convList
      end
  | None => ret convList
  end.

Fixpoint conversation_loop (currentUserId : string) (rows : list RequestRow.t)
    (convList : list Conversation.t) : M (list Conversation.t) :=
  match rows with
  | [] => ret convList
  | request :: rest =>
      convList' <~ conversation_step currentUserId request convList ;;
      conversation_loop currentUserId rest convList'
  end.

Definition fetchConversations : M unit :=
  fun st =>
    match currentUserId (hook st) with
    | Some uid =>
        if negb (truthy uid) then ret tt st else
        (resp <~ call select_barter_requests ;;
         match resp with
         | Data barterRequests =>
             convList <~ conversation_loop uid barterRequests [] ;;
             setConversations convList ;;;
             setLoading false
         | Error e =>
             console_error "Error fetching conversations:" e ;;;
             toast_error "Failed to load conversations" ;;;
             setLoading false
         end) st
    | None => ret tt st
    end.

(** ** [fetchMessages] *)

Definition fetchMessages (barterRequestId : string) : M unit :=
  resp <~ call (select_messages barterRequestId) ;;
  match resp with
  | Data rows => setMessages (fun prev => <[barterRequestId := rows]> prev)
  | Error e =>
      console_error "Error fetching messages:" e ;;;
      toast_error "Failed to load messages"
  end.

(** ** [sendMessage] *)

Definition sendMessage (barterRequestId : string) (content : text)
  : M (Result unit) :=
  fun st =>
    match currentUserId (hook st) with
    | Some uid =>
        if negb (truthy uid) || negb (truthy_text (trim content))
        then ret (Returned tt) st else
        (resp <~ call (insert_message barterRequestId uid (trim content)) ;;
         match error resp with
         | Some e =>
             console_error "Error sending message:" e ;;;
             toast_error "Failed to send message" ;;;
             ret (Thrown e)
         | None =>
             (fun st' =>
                (_ <~ call (update_barter_request barterRequestId
                                                  (client_now st')) ;;
                 ret (Returned tt)) st')
         end) st
    | None => ret (Returned tt) st
    end.

(** ** [handleSendMessage] (chat page) *)

Definition MAX_MESSAGE_LENGTH : Z := 2000.

Definition handleSendMessage : M unit :=
  fun st =>
    let message := message (page st) in
    match selectedConversation (page st) with
    | Some conv =>
        if negb (truthy conv) || negb (truthy_text (trim message))
        then ret tt st else
        if text_length (trim message) >? MAX_MESSAGE_LENGTH
        then toast_error "Message too long. Maximum 2000 characters." st
        else
        (r <~ sendMessage conv message ;;
         match r with
         | Returned _ => setMessage []
         | Thrown e => console_error "Failed to send message:" e
         end) st
    | None => ret tt st
    end.

(** ** [getOrCreateConversation] *)

Definition getOrCreateConversation (otherUserId : string)
    (offeredSkillId : option string) : M (option string) :=
  fun st =>
    match currentUserId (hook st) with
    | Some uid =>
        if negb (truthy uid) || str_eq uid otherUserId then ret None st else
        (existing <~ call (select_request_of uid) ;;
         match mjoin (data existing) with
         | Some existing_id =>
             fetchConversations ;;;
             ret (Some existing_id)
         | None =>
             match offeredSkillId with
             | Some skill =>
                 if negb (truthy skill)
                 then toast_error "Please select a skill to offer first" ;;;
                      ret None
                 else
                 resp <~ call (insert_barter_request uid skill skill "pending") ;;
                 match resp with
                 | Data new_id =>
                     fetchConversations ;;;
                     ret (Some new_id)
                 | Error e =>
                     console_error "Error creating conversation:" e ;;;
                     toast_error "Failed to start conversation" ;;;
                     ret None
                 end
             | None =>
                 toast_error "Please select a skill to offer first" ;;;
                 ret None
             end
         end) st
    | None => ret None st
    end.

(** ** The realtime [INSERT] handler on [messages] *)

(** The updater passed to [setMessages]. *)
Definition merge_message (requestId : string) (newMessage : Message.t)
    (prev : gmap string (list Message.t)) : gmap string (list Message.t) :=
  let existingMessages := default [] (prev !! requestId) in
  let messageExists :=
    existsb (fun m => str_eq (Message.id m) (Message.id newMessage))
            existingMessages in
  if messageExists then prev
  else <[requestId := existingMessages ++ [newMessage]]> prev.

Definition on_message_insert (newMessage : Message.t) : M unit :=
  match Message.barter_request_id newMessage with
  | Some requestId =>
      if truthy requestId then
        setMessages (merge_message requestId newMessage) ;;;
        fetchConversations
      else ret tt
  | None => ret tt
  end.

(** * Vocabulary of the properties *)

(** ** Frames *)

(** The data the store holds, apart from the oracle and the trace. *)
Definition contents (s : Store) :=
  (skills s, barter_requests s, profiles_public s, messages_table s,
   server_now s, uuid s, minted s).

(** The client side of the state. *)
Definition client (st : State) :=
  (hook st, page st, client_now st, toasts st, console st).

(** A run that only read from the store. *)
Definition reads (st st' : State) : Prop :=
  contents (store st') = contents (store st) /\ client st' = client st.

(** ** Roles in a request, in the words of the data model *)

(** The owner of the requested skill, when the skill resolves. *)
Definition owner_of (row : RequestRow.t) : option string :=
  Skill.user_id <$> RequestRow.skills row.

Definition requester_of (row : RequestRow.t) : string :=
  BarterRequest.requester_id (RequestRow.request row).

(** The user takes part in the request: as requester or as resolvable owner
    of the requested skill. *)
Definition involved (uid : string) (row : RequestRow.t) : bool :=
  str_eq (requester_of row) uid || opt_str_eq (owner_of row) uid.

(** The other participant. *)
Definition counterpart (uid : string) (row : RequestRow.t) : option string :=
  if str_eq (requester_of row) uid then owner_of row
  else Some (requester_of row).

(** The public profile of a user, when exactly one row has that id. *)
Definition profile_of (s : Store) (uid : string) : option Profile.t :=
  data (single (filter (fun p => Profile.id p = uid) (profiles_public s))).

(** The most recent message of a thread. *)
Definition last_message_of (s : Store) (rid : string) : option Message.t :=
  mjoin (data (maybeSingle (take 1 (order_desc Message.created_at
                                               (thread_rows s rid))))).

(** Every lookup of the request succeeds: the user takes part, the
    counterpart id resolves and the counterpart's public profile is found. *)
Definition resolves (uid : string) (s : Store) (row : RequestRow.t) : bool :=
  involved uid row &&
  match counterpart uid row with
  | Some other => truthy other && bool_decide (is_Some (profile_of s other))
  | None => false
  end.

(** The conversation a request yields when no call fails. *)
Definition conversation_of (uid : string) (s : Store) (row : RequestRow.t)
  : option Conversation.t :=
  if involved uid row then
    other ← counterpart uid row;
    if truthy other then
      p ← profile_of s other;
      let rid := BarterRequest.id (RequestRow.request row) in
      let last := last_message_of s rid in
      Some (Conversation.mk rid (Profile.id p)
              (or_default (Profile.full_name p) "Unknown User")
              (or_default (Profile.avatar_url p) "")
              (Message.content <$> last) (Message.created_at <$> last)
              (Some rid))
    else None
  else None.

(** ** Conversation bootstrap *)

(** What the lookup for an existing request hands to [if (existing)]. *)
Definition existing_request (uid : string) (s : Store) : option string :=
  mjoin (data (select_request_of uid s).1).

(** The row the creation branch inserts. *)
Definition created_request (uid skill : string) (s : Store) : BarterRequest.t :=
  BarterRequest.mk (uuid s (minted s)) uid skill skill "pending" (server_now s).

(** ** The in-memory threads *)

(** [messages[requestId] || []] *)
Definition thread (msgs : gmap string (list Message.t)) (rid : string)
  : list Message.t :=
  default [] (msgs !! rid).

(** How many messages of [l] carry the id of [m]. *)
Definition copies (m : Message.t) (l : list Message.t) : nat :=
  length (filter (fun x => Message.id x = Message.id m) l).

(** Every thread held in memory is non-decreasing by [created_at]. *)
Definition threads_ordered (st : State) : Prop :=
  forall rid l, messages (hook st) !! rid = Some l ->
                ascending Message.created_at l = true.

(** The handler appends the event's message to thread [rid]: the event
    names that thread and no message of the thread carries its id.  Any
    other event leaves the threads as they are. *)
Definition appended (m : Message.t) (rid : string) (st : State) : Prop :=
  Message.barter_request_id m = Some rid /\ truthy rid = true /\
  existsb (fun x => str_eq (Message.id x) (Message.id m))
          (thread (messages (hook st)) rid) = false.

(** If the event's message is appended, it is not older than the last
    message of its thread.  Nothing is asked of an event that is replayed
    or discarded. *)
Definition timely (m : Message.t) (st : State) : Prop :=
  forall rid x, appended m rid st ->
                last (thread (messages (hook st)) rid) = Some x ->
                Message.created_at x <= Message.created_at m.

(** What changes the threads: a history load, or a live insert event. *)
Inductive sync_step : State -> State -> Prop :=
| sync_load rid st : sync_step st (fetchMessages rid st).2
| sync_merge m st : timely m st -> sync_step st (on_message_insert m st).2.

(** ** A small marketplace, for the scenarios *)

Definition demo_uuid (n : nat) : string := "generated-" +:+ pretty n.

(** Alice asks for Bob's skill (r1), Carol asks for Alice's skill (r2), and
    Alice's request r3 points at a skill that has since been deleted. *)
Definition demo_store : Store :=
  mkStore
    [Skill.mk "s1" "bob"; Skill.mk "s2" "alice"]
    [BarterRequest.mk "r1" "alice" "s1" "s2" "pending" 10;
     BarterRequest.mk "r2" "carol" "s2" "s1" "pending" 20;
     BarterRequest.mk "r3" "alice" "deleted" "s2" "pending" 30]
    [Profile.mk "alice" (Some "Alice") None;
     Profile.mk "bob" (Some "Bob") None;
     Profile.mk "carol" None None]
    [Message.mk "m1" "bob" (text_of "hi") 5 (Some "r1")]
    100 demo_uuid 0 [] [].

Definition demo_hook (uid : string) : Hook := mkHook [] ∅ (Some uid) true.

(** [uid] is signed in, has thread r1 selected and [draft] typed in. *)
Definition demo_state (uid : string) (draft : text) : State :=
  mkState demo_store (demo_hook uid) (mkPage (Some "r1") draft) 200 [] [].

(** The same, with the store failing the calls as [oracle] says. *)
Definition demo_state_failing (uid : string) (oracle : list bool) : State :=
  mkState (mkStore (skills demo_store) (barter_requests demo_store)
                   (profiles_public demo_store) (messages_table demo_store)
                   100 demo_uuid 0 oracle [])
          (demo_hook uid) (mkPage (Some "r1") []) 200 [] [].

Definition late_message : Message.t :=
  Message.mk "m2" "alice" (text_of "hello") 7 (Some "r1").

Definition early_message : Message.t :=
  Message.mk "m0" "alice" (text_of "first") 3 (Some "r1").

(** The event of m1 once more, carrying an older timestamp. *)
Definition replayed_message : Message.t :=
  Message.mk "m1" "bob" (text_of "hi") 1 (Some "r1").

Definition stale_conversation : Conversation.t :=
  Conversation.mk "r1" "bob" "Bob" "" None None (Some "r1").

(** A session that already shows a conversation, with the store down. *)
Definition offline_state : State :=
  mkState (mkStore [] [] [] [] 100 demo_uuid 0 [true] [])
          (mkHook [stale_conversation] ∅ (Some "alice") false)
          (mkPage None []) 200 [] [].

(** 2000 letters followed by a space: 2001 code units, 2000 once trimmed. *)
Definition padded_draft : text := repeat 97%N 2000 ++ [32%N].

(** * The rest of the client *)

(** ** The chat page around [handleSendMessage] *)

Definition setSelectedConversation (sel : option string) : M unit :=
  fun st => (tt, mkState (store st) (hook st)
                         (mkPage sel (message (page st)))
                         (client_now st) (toasts st) (console st)).

(** The effect "auto-select first conversation":
    [if (conversations.length > 0 && !selectedConversation)]. *)
Definition autoSelect : M unit :=
  fun st =>
    match conversations (hook st) with
    | first :: _ =>
        if negb (truthy_opt (selectedConversation (page st)))
        then setSelectedConversation (Some (Conversation.id first)) st
        else ret tt st
    | [] => ret tt st
    end.

(** The effect "fetch messages when conversation is selected". *)
Definition fetchSelected : M unit :=
  fun st =>
    match selectedConversation (page st) with
    | Some conv => if truthy conv then fetchMessages conv st else ret tt st
    | None => ret tt st
    end.

(** [conversations.find(c => c.id === selectedConversation)] *)
Definition selectedConv (st : State) : option Conversation.t :=
  match selectedConversation (page st) with
  | Some sel =>
      find (fun c => str_eq (Conversation.id c) sel) (conversations (hook st))
  | None => None
  end.

(** [selectedConversation ? messages[selectedConversation] || [] : []] *)
Definition currentMessages (st : State) : list Message.t :=
  match selectedConversation (page st) with
  | Some sel =>
      if truthy sel then default [] (messages (hook st) !! sel) else []
  | None => []
  end.

(** ** The tags of [CreateSkillDialog] *)

Module SkillForm.
(** The [formData] cell. *)
Record t := mk {
  title : text;
  description : text;
  category : text;
  skill_type : text;
  level : text;
  duration_hours : text;
  duration_description : text;
  tags : list text
}.

(** [{ ...formData, tags: l }] *)
Definition with_tags (l : list text) (f : t) : t :=
  mk (title f) (description f) (category f) (skill_type f) (level f)
     (duration_hours f) (duration_description f) l.
End SkillForm.

(** The cells [addTag] and [removeTag] touch. *)
Record SkillDialog := mkSkillDialog {
  formData : SkillForm.t;
  tagInput : text
}.

(** [formData.tags.includes(tag)] *)
Definition includes (tags : list text) (tag : text) : bool :=
  bool_decide (tag ∈ tags).

Definition addTag (d : SkillDialog) : SkillDialog :=
  let tags := SkillForm.tags (formData d) in
  if truthy_text (trim (tagInput d)) && negb (includes tags (trim (tagInput d)))
  then mkSkillDialog
         (SkillForm.with_tags (tags ++ [trim (tagInput d)]) (formData d)) []
  else d.

Definition removeTag (tag : text) (d : SkillDialog) : SkillDialog :=
  mkSkillDialog
    (SkillForm.with_tags
       (filter (fun t => t <> tag) (SkillForm.tags (formData d)))
       (formData d))
    (tagInput d).

(** ** [handleProposeSwap] of [ProposeSwapDialog] *)

Module SwapPayload.
(** The object handed to [.insert] on [barter_requests]. *)
Record t := mk {
  requester_id : string;
  requested_skill_id : string;
  offered_skill_id : string;
  message : option text;
  status : string
}.
End SwapPayload.

(** The dialog: its props and cells, and what it does to its surroundings.
    The store, the error toasts and the console are those of [State]. *)
Record SwapDialog := mkSwapDialog {
  app : State;
  requestedSkillId : string;             (* prop *)
  selectedSkillId : string;              (* cell, [""] when nothing is chosen *)
  swap_message : text;                   (* cell [message] *)
  swap_loading : bool;                   (* cell [loading] *)
  successes : list string;               (* [toast.success] calls *)
  navigations : list string;             (* [navigate] calls *)
  open_changes : list bool;              (* [onOpenChange] calls *)
  submitted : list SwapPayload.t         (* payloads of the request inserts *)
}.

Definition in_app {A} (m : M A) (d : SwapDialog) : A * SwapDialog :=
  let '(a, st) := m (app d) in
  (a, mkSwapDialog st (requestedSkillId d) (selectedSkillId d)
        (swap_message d) (swap_loading d) (successes d) (navigations d)
        (open_changes d) (submitted d)).

Definition setSwapLoading (b : bool) (d : SwapDialog) : SwapDialog :=
  mkSwapDialog (app d) (requestedSkillId d) (selectedSkillId d)
    (swap_message d) b (successes d) (navigations d) (open_changes d)
    (submitted d).

Definition submit (p : SwapPayload.t) (d : SwapDialog) : SwapDialog :=
  mkSwapDialog (app d) (requestedSkillId d) (selectedSkillId d)
    (swap_message d) (swap_loading d) (successes d) (navigations d)
    (open_changes d) (submitted d ++ [p]).

(** [toast.success(..); navigate('/chat'); onOpenChange(false)] *)
Definition proposal_sent (d : SwapDialog) : SwapDialog :=
  mkSwapDialog (app d) (requestedSkillId d) (selectedSkillId d)
    (swap_message d) (swap_loading d)
    (successes d ++ ["Swap proposal sent! Opening chat..."])
    (navigations d ++ ["/chat"]) (open_changes d ++ [false]) (submitted d).

(** The payload of the request insert; [message.trim() || null]. *)
Definition swap_payload (uid : string) (d : SwapDialog) : SwapPayload.t :=
  SwapPayload.mk uid (requestedSkillId d) (selectedSkillId d)
    (if truthy_text (trim (swap_message d))
     then Some (trim (swap_message d)) else None)
    "pending".

(** [user] is what [supabase.auth.getUser()] hands back: the id of the
    signed-in user, if any.  The store row of the request keeps the columns
    of [BarterRequest.t]; the whole payload is kept in [submitted]. *)
Definition handleProposeSwap (user : option string) (d : SwapDialog)
  : SwapDialog :=
  if negb (truthy (selectedSkillId d))
  then (in_app (toast_error "Please select a skill to offer") d).2
  else if text_length (trim (swap_message d)) >? MAX_MESSAGE_LENGTH
  then (in_app (toast_error "Message too long. Maximum 2000 characters.") d).2
  else
    let d := setSwapLoading true d in
    match user with
    | None =>
        setSwapLoading false
          (in_app (toast_error "Please sign in to propose a swap") d).2
    | Some uid =>
        let payload := swap_payload uid d in
        let '(barter, d) :=
          in_app (call (insert_barter_request
                          (SwapPayload.requester_id payload)
                          (SwapPayload.requested_skill_id payload)
                          (SwapPayload.offered_skill_id payload)
                          (SwapPayload.status payload)))
                 (submit payload d) in
        match barter with
        | Data barterRequest_id =>
            let d :=
              if truthy_text (trim (swap_message d)) then
                let '(msg, d) :=
                  in_app (call (insert_message barterRequest_id uid
                                               (trim (swap_message d)))) d in
                match error msg with
                | Some msgError =>
                    (in_app (console_error "Error sending initial message:"
                                           msgError) d).2
                | None => d
                end
              else d in
            setSwapLoading false (proposal_sent d)
        | Error barterError =>
            setSwapLoading false
              (in_app (console_error "Error proposing swap:" barterError ;;;
                       toast_error "Failed to send swap proposal") d).2
        end
    end.

(** * More vocabulary *)

(** A call that only reads. *)
Definition is_query (c : StoreCall) : bool :=
  match c with
  | SelectBarterRequests | SelectProfile _ | SelectLastMessage _
  | SelectMessages _ | SelectRequestOf _ => true
  | InsertMessage _ _ _ | UpdateBarterRequest _ _
  | InsertBarterRequest _ _ _ _ => false
  end.

(** Non-increasing by [key]. *)
Definition descending {A} (key : A -> Z) (l : list A) : bool :=
  ascending (fun x => - key x) l.

(** Neither starts nor ends with whitespace. *)
Definition trimmed (s : text) : Prop :=
  trimStart s = s /\ trimStart (rev s) = rev s.

(** The [updated_at] of a fetched request. *)
Definition activity (row : RequestRow.t) : timestamp :=
  BarterRequest.updated_at (RequestRow.request row).

(** Conversation [c] is what the loop makes of the fetched request [row]:
    its id is the request's, its participant is the request's counterpart,
    and name and avatar are those of the counterpart's public profile, with
    the fallbacks. *)
Definition derived_from (uid : string) (s : Store) (c : Conversation.t)
    (row : RequestRow.t) : Prop :=
  involved uid row = true /\
  Conversation.id c = BarterRequest.id (RequestRow.request row) /\
  Conversation.barter_request_id c = Some (Conversation.id c) /\
  counterpart uid row = Some (Conversation.participant_id c) /\
  truthy (Conversation.participant_id c) = true /\
  exists p, p ∈ profiles_public s /\
    Profile.id p = Conversation.participant_id c /\
    Conversation.participant_name c
      = or_default (Profile.full_name p) "Unknown User" /\
    Conversation.participant_avatar c = or_default (Profile.avatar_url p) "".

(** Tags as the dialog keeps them: no tag twice, none empty, none with
    whitespace around it. *)
Definition clean_tags (l : list text) : Prop :=
  NoDup l /\ Forall (fun t => t <> [] /\ trimmed t) l.

(** A swap dialog over the demo store, for the scenarios. *)
Definition demo_dialog (skill : string) (note : text) (oracle : list bool)
  : SwapDialog :=
  mkSwapDialog (demo_state_failing "bob" oracle) "s2" skill note false
               [] [] [] [].

Definition demo_tags : SkillDialog :=
  mkSkillDialog
    (SkillForm.mk (text_of "Guitar") [] [] (text_of "offered") [] [] []
                  [text_of "music"])
    (text_of "  chords ").

(** Nobody is signed in. *)
Definition signed_out_state : State :=
  mkState demo_store (mkHook [] ∅ None true) (mkPage None []) 200 [] [].

(** Alice arrives on the chat page: nothing selected yet. *)
Definition arriving_state : State :=
  mkState demo_store (demo_hook "alice") (mkPage None []) 200 [] [].

Definition first_message : Message.t :=
  Message.mk "m1" "bob" (text_of "hi") 5 (Some "r1").

Definition first_request : BarterRequest.t :=
  BarterRequest.mk "r1" "alice" "s1" "s2" "pending" 10.

(** * Properties *)

(** ** The store's ordering *)

Section OrderingFacts.
  Context {A : Type} (key : A -> Z).

Lemma ascending_cons x l :
  ascending key (x :: l) = true <->
  (forall y, head l = Some y -> key x <= key y) /\ ascending key l = true.
Proof.
  destruct l as [|y l]; simpl.
  - split; [intros _; split; [discriminate | reflexivity] | reflexivity].
  - rewrite andb_true_iff, Z.leb_le. split.
    + intros [Hxy Hl]. split; [|exact Hl]. intros z [= <-]. exact Hxy.
    + intros [Hxy Hl]. split; [apply Hxy; reflexivity | exact Hl].
Qed.

Lemma head_insert_asc x l y :
  head (insert_asc key x l) = Some y -> y = x \/ head l = Some y.
Proof.
  destruct l as [|z l]; simpl.
  - intros [= <-]. by left.
  - destruct (key x <=? key z); simpl; intros [= <-]; auto.
Qed.

Lemma insert_asc_ascending x l :
  ascending key l = true -> ascending key (insert_asc key x l) = true.
Proof.
  induction l as [|y l IH]; intros Hl; [reflexivity|].
  cbn [insert_asc]. destruct (key x <=? key y) eqn:Hxy.
  - apply ascending_cons. split; [|exact Hl].
    intros z [= <-]. by apply Z.leb_le.
  - apply ascending_cons in Hl as [Hy Hl]. apply ascending_cons.
    split; [|by apply IH].
    intros z [->|Hz]%head_insert_asc; [|by apply Hy].
    apply Z.leb_gt in Hxy. lia.
Qed.

Lemma order_asc_ascending l : ascending key (order_asc key l) = true.
Proof.
  induction l as [|x l IH]; [reflexivity|].
  by apply insert_asc_ascending.
Qed.

Lemma insert_asc_perm x l : insert_asc key x l ≡ₚ x :: l.
Proof.
  induction l as [|y l IH]; [reflexivity|]. simpl.
  destruct (key x <=? key y); [reflexivity|].
  rewrite IH. apply Permutation_swap.
Qed.

Lemma order_asc_perm l : order_asc key l ≡ₚ l.
Proof.
  induction l as [|x l IH]; [reflexivity|]. simpl.
  by rewrite insert_asc_perm, IH.
Qed.

Lemma insert_desc_perm x l : insert_desc key x l ≡ₚ x :: l.
Proof.
  induction l as [|y l IH]; [reflexivity|]. simpl.
  destruct (key y <=? key x); [reflexivity|].
  rewrite IH. apply Permutation_swap.
Qed.

Lemma order_desc_perm l : order_desc key l ≡ₚ l.
Proof.
  induction l as [|x l IH]; [reflexivity|]. simpl.
  by rewrite insert_desc_perm, IH.
Qed.

(** In an ascending list nothing is below the head. *)
Lemma ascending_head_le x l y :
  ascending key (x :: l) = true -> y ∈ l -> key x <= key y.
Proof.
  revert x. induction l as [|z l IH]; intros x Hl Hy.
  - by apply elem_of_nil in Hy.
  - apply ascending_cons in Hl as [Hx Hl].
    specialize (Hx z eq_refl).
    apply elem_of_cons in Hy as [->|Hy]; [exact Hx|].
    specialize (IH z Hl Hy). lia.
Qed.

(** Appending a row that is not older than the rows present keeps the
    list ascending; appending an older one does not. *)
Lemma ascending_snoc l m :
  ascending key (l ++ [m]) = true <->
  ascending key l = true /\ (forall x, last l = Some x -> key x <= key m).
Proof.
  induction l as [|x l IH].
  - simpl. split; [intros _; split; [reflexivity | discriminate] | reflexivity].
  - change ((x :: l) ++ [m]) with (x :: (l ++ [m])).
    rewrite !ascending_cons, IH. destruct l as [|y l].
    + simpl. split.
      * intros [H _]. split; [split; [discriminate | reflexivity]|].
        intros z [= <-]. by apply H.
      * intros [_ H]. split; [|split; [reflexivity | discriminate]].
        intros z [= <-]. by apply H.
    + change (last (x :: y :: l)) with (last (y :: l)). simpl head. tauto.
Qed.

End OrderingFacts.

(** ** Frames: what a call leaves alone *)

Lemma reads_refl st : reads st st.
Proof. by split. Qed.

Lemma reads_trans st1 st2 st3 : reads st1 st2 -> reads st2 st3 -> reads st1 st3.
Proof. intros [H1 H2] [H3 H4]. split; congruence. Qed.

Lemma contents_served c s : contents (served c s) = contents s.
Proof. reflexivity. Qed.

Lemma request_rows_contents s s' :
  contents s' = contents s -> request_rows s' = request_rows s.
Proof.
  destruct s, s'. unfold contents, request_rows, join_skill. simpl.
  by intros [= -> -> _ _ _ _ _].
Qed.

Lemma thread_rows_contents s s' rid :
  contents s' = contents s -> thread_rows s' rid = thread_rows s rid.
Proof.
  destruct s, s'. unfold contents, thread_rows. simpl.
  by intros [= _ _ _ -> _ _ _].
Qed.

Lemma profiles_contents s s' :
  contents s' = contents s -> profiles_public s' = profiles_public s.
Proof. destruct s, s'. unfold contents. simpl. by intros [= _ _ -> _ _ _ _]. Qed.

Lemma barter_requests_contents s s' :
  contents s' = contents s -> barter_requests s' = barter_requests s.
Proof. destruct s, s'. unfold contents. simpl. by intros [= _ -> _ _ _ _ _]. Qed.

Lemma messages_table_contents s s' :
  contents s' = contents s -> messages_table s' = messages_table s.
Proof. destruct s, s'. unfold contents. simpl. by intros [= _ _ _ -> _ _ _]. Qed.

(** A query: a call whose [sem] only reads. *)
Lemma call_query_reads {A} c (q : Store -> Response A) st :
  reads st (call (rpc c (fun s => (q s, s))) st).2.
Proof.
  unfold call, rpc. destruct (failing (store st)); simpl; by split.
Qed.

Lemma call_query_store {A} c (q : Store -> Response A) st :
  store (call (rpc c (fun s => (q s, s))) st).2 = served c (store st).
Proof. unfold call, rpc. by destruct (failing (store st)). Qed.

Lemma conversation_step_reads uid row acc st :
  reads st (conversation_step uid row acc st).2.
Proof.
  unfold conversation_step.
  destruct (negb _ && negb _); [apply reads_refl|].
  destruct (if str_eq _ _ then _ else _) as [other|]; [|apply reads_refl].
  destruct (negb (truthy other)); [apply reads_refl|].
  unfold bind, select_profile, select_last_message.
  match goal with |- context [call (rpc ?c ?q) st] =>
    pose proof (call_query_reads c (fun s => fst (q s)) st) as H1;
    destruct (call (rpc c q) st) as [profile st1] eqn:E1 end.
  match goal with |- context [call (rpc ?c ?q) st1] =>
    pose proof (call_query_reads c (fun s => fst (q s)) st1) as H2;
    destruct (call (rpc c q) st1) as [lastMsg st2] eqn:E2 end.
  simpl in H1, H2. rewrite E1 in H1. rewrite E2 in H2. simpl in H1, H2.
  destruct (data profile); simpl; by eapply reads_trans.
Qed.

Lemma conversation_loop_reads uid rows acc st :
  reads st (conversation_loop uid rows acc st).2.
Proof.
  revert acc st. induction rows as [|row rows IH]; intros acc st.
  - apply reads_refl.
  - simpl. unfold bind.
    pose proof (conversation_step_reads uid row acc st) as H.
    destruct (conversation_step uid row acc st) as [acc' st1].
    eapply reads_trans; [exact H | apply IH].
Qed.

(** ** The conversation loop *)

(** The loop body, with the role test and the counterpart named. *)
Lemma conversation_step_roles uid row acc :
  conversation_step uid row acc =
  if involved uid row then
    match counterpart uid row with
    | Some other =>
        if truthy other then
          profile <~ call (select_profile other) ;;
          lastMsg <~ call (select_last_message
                             (BarterRequest.id (RequestRow.request row))) ;;
          match data profile with
          | Some p =>
              let last := mjoin (data lastMsg) in
              ret (acc ++
                   [Conversation.mk (BarterRequest.id (RequestRow.request row))
                      (Profile.id p)
                      (or_default (Profile.full_name p) "Unknown User")
                      (or_default (Profile.avatar_url p) "")
                      (Message.content <$> last)
                      (Message.created_at <$> last)
                      (Some (BarterRequest.id (RequestRow.request row)))])
          | None => ret acc
          end
        else ret acc
    | None => ret acc
    end
  else ret acc.
Proof.
  unfold conversation_step, involved, counterpart, requester_of, owner_of.
  destruct (str_eq _ uid), (opt_str_eq _ uid); simpl; try reflexivity.
  - destruct (_ <$> _) as [other|]; [|reflexivity].
    by destruct (truthy other).
  - destruct (_ <$> _) as [other|]; [|reflexivity].
    by destruct (truthy other).
  - by destruct (truthy _).
Qed.

Lemma conversation_step_result uid row acc st :
  (conversation_step uid row acc st).1 = acc \/
  (involved uid row = true /\
   exists c, (conversation_step uid row acc st).1 = acc ++ [c] /\
     Conversation.id c = BarterRequest.id (RequestRow.request row)).
Proof.
  rewrite conversation_step_roles.
  destruct (involved uid row); [|by left].
  destruct (counterpart uid row) as [other|]; [|by left].
  destruct (truthy other); [|by left].
  unfold bind.
  destruct (call (select_profile other) st) as [profile st1].
  destruct (call (select_last_message _) st1) as [lastMsg st2].
  destruct (data profile) as [p|]; [|by left].
  right. split; [reflexivity|]. eexists. split; reflexivity.
Qed.

Lemma conversation_loop_origin uid rows acc st c :
  c ∈ (conversation_loop uid rows acc st).1 ->
  c ∈ acc \/
  exists row, row ∈ rows /\ involved uid row = true /\
              Conversation.id c = BarterRequest.id (RequestRow.request row).
Proof.
  revert acc st. induction rows as [|row rows IH]; intros acc st; simpl.
  - by left.
  - unfold bind.
    pose proof (conversation_step_result uid row acc st) as Hstep.
    destruct (conversation_step uid row acc st) as [acc' st1].
    simpl in Hstep.
    intros [Hc|(row' & Hin & Hinv & Hid)]%IH.
    + destruct Hstep as [->|(Hinv & c' & -> & Hid)]; [by left|].
      apply elem_of_app in Hc as [Hc|Hc]; [by left|].
      apply list_elem_of_singleton in Hc as ->.
      right. exists row. split; [apply elem_of_cons; by left | done].
    + right. exists row'. split; [apply elem_of_cons; by right | done].
Qed.

Lemma failing_no_faults s : faults s = [] -> failing s = false.
Proof. unfold failing. by intros ->. Qed.

Lemma conversation_step_no_faults uid row acc st :
  faults (store st) = [] ->
  (conversation_step uid row acc st).1
    = acc ++ option_list (conversation_of uid (store st) row)
  /\ faults (store (conversation_step uid row acc st).2) = [].
Proof.
  intros Hf. rewrite conversation_step_roles. unfold conversation_of.
  destruct (involved uid row); simpl; [|by rewrite app_nil_r].
  destruct (counterpart uid row) as [other|]; simpl; [|by rewrite app_nil_r].
  destruct (truthy other); simpl; [|by rewrite app_nil_r].
  unfold bind, call, select_profile, select_last_message, rpc.
  rewrite (failing_no_faults _ Hf). simpl.
  rewrite (failing_no_faults (served _ _)) by (simpl; by rewrite Hf).
  unfold profile_of, last_message_of, thread_rows. simpl.
  destruct (single _) as [p|e]; simpl; rewrite Hf; [done|by rewrite app_nil_r].
Qed.

Lemma conversation_of_contents uid s s' row :
  contents s' = contents s ->
  conversation_of uid s' row = conversation_of uid s row.
Proof.
  intros H. unfold conversation_of, profile_of, last_message_of.
  by rewrite (profiles_contents _ _ H), (thread_rows_contents _ _ _ H).
Qed.

Lemma omap_conversation_of_contents uid s s' (rows : list RequestRow.t) :
  contents s' = contents s ->
  omap (conversation_of uid s') rows = omap (conversation_of uid s) rows.
Proof.
  intros H. induction rows as [|row rows IH]; [reflexivity|].
  simpl. rewrite (conversation_of_contents uid s s' row H).
  destruct (conversation_of uid s row); [f_equal|]; exact IH.
Qed.

Lemma conversation_loop_no_faults uid rows acc st :
  faults (store st) = [] ->
  (conversation_loop uid rows acc st).1
    = acc ++ omap (conversation_of uid (store st)) rows.
Proof.
  revert acc st. induction rows as [|row rows IH]; intros acc st Hf; simpl.
  - by rewrite app_nil_r.
  - unfold bind.
    destruct (conversation_step_no_faults uid row acc st Hf) as [Hr Hf'].
    pose proof (conversation_step_reads uid row acc st) as [Hc _].
    destruct (conversation_step uid row acc st) as [acc' st1].
    simpl in *. rewrite IH by done. subst acc'.
    rewrite <- app_assoc. f_equal.
    rewrite (omap_conversation_of_contents uid _ _ rows Hc).
    by destruct (conversation_of uid (store st) row).
Qed.

(** ** [fetchConversations] *)

Lemma fetchConversations_frame st :
  let st' := (fetchConversations st).2 in
  contents (store st') = contents (store st) /\
  messages (hook st') = messages (hook st) /\
  currentUserId (hook st') = currentUserId (hook st) /\
  page st' = page st /\ client_now st' = client_now st.
Proof.
  unfold fetchConversations.
  destruct (currentUserId (hook st)) as [uid|] eqn:Huid; [|done].
  destruct (negb (truthy uid)); [done|].
  unfold bind, call, select_barter_requests, rpc.
  destruct (failing (store st)); simpl; [done|].
  match goal with |- context [conversation_loop uid ?rows [] ?st0] =>
    pose proof (conversation_loop_reads uid rows [] st0) as [Hc Hk];
    destruct (conversation_loop uid rows [] st0) as [convList st1] end.
  simpl in *. unfold client in Hk. simpl in Hk.
  injection Hk as Hh Hp Hn _ _. rewrite Hh. by rewrite Huid.
Qed.

(** Name what a [fetchConversations] in the goal leaves alone. *)
Ltac fetch_frame H :=
  match goal with
  | |- context [fetchConversations ?st0] =>
      pose proof (fetchConversations_frame st0) as H
  end.

(** The run of a derivation whose top-level fetch goes through. *)
Lemma fetchConversations_fetched st uid :
  currentUserId (hook st) = Some uid -> truthy uid = true ->
  failing (store st) = false ->
  conversations (hook (fetchConversations st).2)
  = (conversation_loop uid (request_rows (store st)) []
       (with_store (served SelectBarterRequests (store st)) st)).1.
Proof.
  intros Huid Ht Hf. unfold fetchConversations.
  rewrite Huid, Ht. simpl.
  unfold bind, call, select_barter_requests, rpc. rewrite Hf. simpl.
  rewrite (request_rows_contents (store st) (served _ _)) by done.
  by destruct (conversation_loop _ _ _ _).
Qed.

Lemma elem_of_request_rows s row :
  row ∈ request_rows s <->
  exists r, r ∈ barter_requests s /\ row = join_skill s r.
Proof.
  unfold request_rows. rewrite order_desc_perm, list_elem_of_fmap.
  split; intros (r & H1 & H2); exists r; by split.
Qed.

Lemma fmap_NoDup_inj {A B} (f : A -> B) (l : list A) x y :
  NoDup (f <$> l) -> x ∈ l -> y ∈ l -> f x = f y -> x = y.
Proof.
  induction l as [|z l IH]; simpl; intros Hnd Hx Hy Hxy.
  - by apply elem_of_nil in Hx.
  - apply NoDup_cons in Hnd as [Hz Hnd].
    apply elem_of_cons in Hx as [->|Hx]; apply elem_of_cons in Hy as [->|Hy].
    + reflexivity.
    + exfalso. apply Hz. rewrite Hxy. by apply list_elem_of_fmap_2.
    + exfalso. apply Hz. rewrite <- Hxy. by apply list_elem_of_fmap_2.
    + by apply IH.
Qed.

(** C3. A conversation is listed only for a request in which the current
    user is the requester or the resolvable owner of the requested skill:
    every conversation of the derived list stems from such a request, and
    (request ids being unique) the id of a request in which the user is
    neither is not in the list. *)
Theorem uninvolved_request_never_listed st uid :
  currentUserId (hook st) = Some uid -> truthy uid = true ->
  failing (store st) = false ->
  let s := store st in
  let convs := conversations (hook (fetchConversations st).2) in
  (forall c, c ∈ convs ->
     exists r, r ∈ barter_requests s /\
               Conversation.id c = BarterRequest.id r /\
               involved uid (join_skill s r) = true) /\
  (NoDup (BarterRequest.id <$> barter_requests s) ->
   forall r, r ∈ barter_requests s ->
             involved uid (join_skill s r) = false ->
             BarterRequest.id r ∉ Conversation.id <$> convs).
Proof.
  intros Huid Ht Hf s convs.
  assert (forall c, c ∈ convs ->
     exists r, r ∈ barter_requests s /\
               Conversation.id c = BarterRequest.id r /\
               involved uid (join_skill s r) = true) as Hsrc.
  { intros c Hc. unfold convs in Hc.
    rewrite (fetchConversations_fetched st uid Huid Ht Hf) in Hc.
    apply conversation_loop_origin in Hc
      as [Hc|(row & Hrow & Hinv & Hid)]; [by apply elem_of_nil in Hc|].
    apply elem_of_request_rows in Hrow as (r & Hr & ->).
    exists r. by rewrite Hid. }
  split; [exact Hsrc|].
  intros Hnd r Hr Hout (c & Hid & Hc)%list_elem_of_fmap.
  destruct (Hsrc c Hc) as (r' & Hr' & Hid' & Hinv).
  assert (r = r') as <-
    by (eapply (fmap_NoDup_inj BarterRequest.id); eauto; congruence).
  congruence.
Qed.

Lemma conversation_of_resolves uid s row :
  match conversation_of uid s row with
  | Some c => resolves uid s row = true /\
              Conversation.id c = BarterRequest.id (RequestRow.request row)
  | None => resolves uid s row = false
  end.
Proof.
  unfold conversation_of, resolves.
  destruct (involved uid row); simpl; [|done].
  destruct (counterpart uid row) as [other|]; simpl; [|done].
  destruct (truthy other); simpl; [|done].
  destruct (profile_of s other) as [p|]; simpl; [|done].
  by split.
Qed.

Lemma omap_conversation_of_ids uid s (rows : list RequestRow.t) :
  Conversation.id <$> omap (conversation_of uid s) rows
  = (fun row => BarterRequest.id (RequestRow.request row))
      <$> filter (fun row => resolves uid s row = true) rows.
Proof.
  induction rows as [|row rows IH]; [reflexivity|].
  rewrite filter_cons. simpl.
  pose proof (conversation_of_resolves uid s row) as H.
  destruct (conversation_of uid s row) as [c|].
  - destruct H as [Hres Hid]. rewrite decide_True by done.
    simpl. f_equal; [exact Hid | exact IH].
  - rewrite decide_False by congruence. exact IH.
Qed.

(** A derivation whose top-level fetch goes through reports nothing. *)
Lemma fetchConversations_quiet st uid :
  currentUserId (hook st) = Some uid -> truthy uid = true ->
  failing (store st) = false ->
  toasts (fetchConversations st).2 = toasts st /\
  console (fetchConversations st).2 = console st.
Proof.
  intros Huid Ht Hf. unfold fetchConversations.
  rewrite Huid, Ht. simpl.
  unfold bind, call, select_barter_requests, rpc. rewrite Hf. simpl.
  match goal with |- context [conversation_loop uid ?rows [] ?st0] =>
    pose proof (conversation_loop_reads uid rows [] st0) as [_ Hk];
    destruct (conversation_loop uid rows [] st0) as [convList st1] end.
  simpl. unfold client in Hk. simpl in Hk.
  by injection Hk as _ _ _ -> ->.
Qed.

(** C4. When no call fails, the derived list holds exactly the requests, in
    fetch order, all of whose lookups succeed: a request whose counterpart
    does not resolve or whose counterpart has no public profile is left
    out, and every other request the user takes part in is kept.  Nothing
    is reported for the requests left out. *)
Theorem failed_lookups_drop_only_their_request st uid :
  currentUserId (hook st) = Some uid -> truthy uid = true ->
  faults (store st) = [] ->
  let st' := (fetchConversations st).2 in
  Conversation.id <$> conversations (hook st')
  = (fun row => BarterRequest.id (RequestRow.request row))
      <$> filter (fun row => resolves uid (store st) row = true)
                 (request_rows (store st)) /\
  toasts st' = toasts st /\ console st' = console st.
Proof.
  intros Huid Ht Hf st'. split.
  - unfold st'.
    rewrite (fetchConversations_fetched st uid Huid Ht
               (failing_no_faults _ Hf)).
    rewrite conversation_loop_no_faults by (simpl; by rewrite Hf).
    simpl. by rewrite omap_conversation_of_ids.
  - apply (fetchConversations_quiet st uid Huid Ht (failing_no_faults _ Hf)).
Qed.

(** C8, as the code has it.  When the top-level fetch fails the error is
    reported (console and toast), [loading] is cleared, and the
    conversation list is left as it was; nothing is thrown. *)
Theorem failed_fetch_keeps_conversations st uid :
  currentUserId (hook st) = Some uid -> truthy uid = true ->
  failing (store st) = true ->
  let st' := (fetchConversations st).2 in
  conversations (hook st') = conversations (hook st) /\
  toasts st' = toasts st ++ ["Failed to load conversations"] /\
  console st'
    = console st ++ [("Error fetching conversations:", StoreUnreachable)] /\
  loading (hook st') = false /\
  contents (store st') = contents (store st).
Proof.
  intros Huid Ht Hf. unfold fetchConversations.
  rewrite Huid, Ht. simpl.
  unfold bind, call, select_barter_requests, rpc. rewrite Hf. by simpl.
Qed.

(** ** [sendMessage] and [handleSendMessage] *)

Lemma truthy_text_false s : truthy_text s = false <-> s = [].
Proof. by destruct s. Qed.

Lemma app_cons_neq {A} (l r : list A) x : l ++ x :: r <> l.
Proof.
  intros H. apply (f_equal length) in H.
  rewrite length_app in H. simpl in H. lia.
Qed.

(** What an accepted [sendMessage] does, call by call. *)
Lemma sendMessage_accepted st rid content uid :
  currentUserId (hook st) = Some uid -> truthy uid = true ->
  trim content <> [] ->
  let s := store st in
  let insert := InsertMessage rid uid (trim content) in
  let update := UpdateBarterRequest rid (client_now st) in
  let row := Message.mk (uuid s (minted s)) uid (trim content)
                        (server_now s) (Some rid) in
  let s1 := set_minted (S (minted s))
              (set_messages_table (messages_table s ++ [row])
                                  (served insert s)) in
  sendMessage rid content st =
  if failing s then
    (Thrown StoreUnreachable,
     mkState (served insert s) (hook st) (page st) (client_now st)
             (toasts st ++ ["Failed to send message"])
             (console st ++ [("Error sending message:", StoreUnreachable)]))
  else if failing s1 then
    (Returned tt, with_store (served update s1) st)
  else
    (Returned tt,
     with_store
       (set_barter_requests
          (map (fun r => if str_eq (BarterRequest.id r) rid
                         then BarterRequest.touch (client_now st) r else r)
               (barter_requests s1))
          (served update s1)) st).
Proof.
  intros Huid Ht Hc. unfold sendMessage. rewrite Huid, Ht.
  destruct (truthy_text (trim content)) eqn:Htr;
    [|by apply truthy_text_false in Htr].
  simpl. unfold bind, call, insert_message, rpc.
  destruct (failing (store st)); simpl; [reflexivity|].
  unfold update_barter_request, rpc. simpl.
  by destruct (failing _).
Qed.

(** [sendMessage] itself turns away only content that trims to nothing. *)
Lemma sendMessage_rejects_only_blank st rid content uid :
  currentUserId (hook st) = Some uid -> truthy uid = true ->
  trace (store (sendMessage rid content st).2) = trace (store st)
  <-> trim content = [].
Proof.
  intros Huid Ht. split.
  - intros Htrace. destruct (decide (trim content = [])) as [|Hne]; [done|].
    rewrite (sendMessage_accepted st rid content uid Huid Ht Hne) in Htrace.
    destruct (failing (store st)); simpl in Htrace;
      [by apply app_cons_neq in Htrace|].
    destruct (failing _); simpl in Htrace; rewrite <- app_assoc in Htrace;
      by apply app_cons_neq in Htrace.
  - intros Hempty. unfold sendMessage. by rewrite Huid, Ht, Hempty.
Qed.

(** C1, as the code has it.  The length bound is the chat page's: with a
    conversation selected and a user signed in, [handleSendMessage] leaves
    the store alone exactly when the trimmed content is empty or the trimmed
    content is longer than 2000 code units; otherwise the next call the
    store receives is the insert of the trimmed content, in particular when
    the trimmed content has exactly 2000.  The hook's [sendMessage] checks
    for emptiness only. *)
Theorem handleSendMessage_validates_locally st conv uid :
  selectedConversation (page st) = Some conv -> truthy conv = true ->
  currentUserId (hook st) = Some uid -> truthy uid = true ->
  let content := message (page st) in
  let st' := (handleSendMessage st).2 in
  let rejected :=
    trim content = [] \/ text_length (trim content) > MAX_MESSAGE_LENGTH in
  (trace (store st') = trace (store st) <-> rejected) /\
  (rejected -> store st' = store st) /\
  (~ rejected ->
   exists rest, trace (store st')
     = trace (store st) ++ InsertMessage conv uid (trim content) :: rest) /\
  (text_length (trim content) = MAX_MESSAGE_LENGTH -> ~ rejected) /\
  (forall rid c, trace (store (sendMessage rid c st).2) = trace (store st)
                 <-> trim c = []).
Proof.
  intros Hsel Hconv Huid Ht content st' rejected.
  assert (rejected -> store st' = store st) as Hrej.
  { unfold rejected, st', handleSendMessage. fold content.
    rewrite Hsel, Hconv. simpl. intros [Hempty|Hlong].
    - by rewrite Hempty.
    - destruct (truthy_text (trim content)); simpl; [|done].
      apply Z.gtb_gt in Hlong. by rewrite Hlong. }
  assert (~ rejected ->
    exists rest, trace (store st')
      = trace (store st) ++ InsertMessage conv uid (trim content) :: rest)
    as Hacc.
  { unfold rejected, st', handleSendMessage. fold content.
    rewrite Hsel, Hconv. simpl. intros Hok.
    destruct (truthy_text (trim content)) eqn:Htr; simpl;
      [|apply truthy_text_false in Htr; tauto].
    destruct (text_length (trim content) >? MAX_MESSAGE_LENGTH) eqn:Hlen;
      [apply Z.gtb_gt in Hlen; tauto|].
    unfold bind.
    rewrite (sendMessage_accepted st conv content uid Huid Ht) by tauto.
    destruct (failing (store st)); simpl; [by exists []|].
    destruct (failing _); simpl; eexists;
      rewrite <- app_assoc; reflexivity. }
  split; [|split; [exact Hrej|split; [exact Hacc|split]]].
  - split; [|by intros ->%Hrej].
    intros Htrace. destruct (decide (trim content = [])) as [|Hne];
      [by left|].
    destruct (Z_gt_dec (text_length (trim content)) MAX_MESSAGE_LENGTH)
      as [|Hle]; [by right|].
    destruct Hacc as [rest Hrest]; [unfold rejected; tauto|].
    rewrite Hrest in Htrace. by apply app_cons_neq in Htrace.
  - intros Hlen [Hempty|Hlong].
    + rewrite Hempty in Hlen. discriminate.
    + rewrite Hlen in Hlong. unfold MAX_MESSAGE_LENGTH in Hlong. lia.
  - intros rid c. by apply (sendMessage_rejects_only_blank st rid c uid).
Qed.

(** C9. An accepted [sendMessage] whose insert goes through makes two store
    calls in order, the insert of the message and then the update of the
    request's [updated_at], and returns normally.  The inserted row stays in
    the [messages] table whatever becomes of the update: when the update
    fails the request keeps its old timestamp and the message is still in
    its thread. *)
Theorem sendMessage_two_writes_not_atomic st rid content uid :
  currentUserId (hook st) = Some uid -> truthy uid = true ->
  trim content <> [] ->
  failing (store st) = false ->
  let s := store st in
  let st' := (sendMessage rid content st).2 in
  let row := Message.mk (uuid s (minted s)) uid (trim content)
                        (server_now s) (Some rid) in
  (sendMessage rid content st).1 = Returned tt /\
  trace (store st')
    = trace s ++ [InsertMessage rid uid (trim content);
                  UpdateBarterRequest rid (client_now st)] /\
  messages_table (store st') = messages_table s ++ [row] /\
  row ∈ thread_rows (store st') rid /\
  (forall rest, faults s = false :: true :: rest ->
     barter_requests (store st') = barter_requests s).
Proof.
  intros Huid Ht Hc Hf s st' row. unfold st'.
  rewrite (sendMessage_accepted st rid content uid Huid Ht Hc), Hf.
  fold s. fold row.
  assert (row ∈ filter (fun m => Message.barter_request_id m = Some rid)
                       (messages_table s ++ [row])) as Hin.
  { apply list_elem_of_filter. split; [reflexivity|].
    apply elem_of_app. right. by apply list_elem_of_singleton. }
  destruct (failing (set_minted _ _)) eqn:Hf2; simpl;
    rewrite <- app_assoc; (repeat split; try done).
  intros rest Hrest. unfold failing in Hf2. simpl in Hf2.
  by rewrite Hrest in Hf2.
Qed.

(** ** [getOrCreateConversation] *)

Lemma str_eq_false a b : a <> b -> str_eq a b = false.
Proof. intros H. unfold str_eq. by apply bool_decide_eq_false. Qed.

Lemma select_request_of_store uid s :
  (select_request_of uid s).2 = served (SelectRequestOf uid) s.
Proof. unfold select_request_of, rpc. by destruct (failing s). Qed.

(** The run past the guard: the lookup, then one of the three branches. *)
Lemma getOrCreateConversation_run st uid other sk :
  currentUserId (hook st) = Some uid -> truthy uid = true -> uid <> other ->
  let s1 := served (SelectRequestOf uid) (store st) in
  getOrCreateConversation other sk st =
  match existing_request uid (store st) with
  | Some id => (Some id, (fetchConversations (with_store s1 st)).2)
  | None =>
      if truthy_opt sk then
        let skill := default "" sk in
        let insert := InsertBarterRequest uid skill skill "pending" in
        if failing s1 then
          (None,
           mkState (served insert s1) (hook st) (page st) (client_now st)
                   (toasts st ++ ["Failed to start conversation"])
                   (console st
                      ++ [("Error creating conversation:", StoreUnreachable)]))
        else
          let row := created_request uid skill s1 in
          (Some (BarterRequest.id row),
           (fetchConversations
              (with_store
                 (set_minted (S (minted s1))
                    (set_barter_requests (barter_requests s1 ++ [row])
                                         (served insert s1))) st)).2)
      else
        (None,
         mkState s1 (hook st) (page st) (client_now st)
                 (toasts st ++ ["Please select a skill to offer first"])
                 (console st))
  end.
Proof.
  intros Huid Ht Hne. unfold getOrCreateConversation, existing_request.
  rewrite Huid, Ht, (str_eq_false _ _ Hne). simpl.
  unfold bind, call.
  pose proof (select_request_of_store uid (store st)) as Hs.
  destruct (select_request_of uid (store st)) as [existing s1].
  simpl in Hs. subst s1. simpl.
  destruct (mjoin (data existing)) as [id|].
  - by destruct (fetchConversations _).
  - destruct sk as [skill|]; simpl; [|reflexivity].
    destruct (truthy skill); simpl; [|reflexivity].
    unfold insert_barter_request, rpc.
    destruct (failing (served _ _)); simpl; [reflexivity|].
    by destruct (fetchConversations _).
Qed.

(** The creation branch, when the insert goes through. *)
Lemma getOrCreateConversation_creates st uid other skill :
  currentUserId (hook st) = Some uid -> truthy uid = true -> uid <> other ->
  existing_request uid (store st) = None -> truthy skill = true ->
  failing (served (SelectRequestOf uid) (store st)) = false ->
  let row := created_request uid skill (served (SelectRequestOf uid) (store st)) in
  (getOrCreateConversation other (Some skill) st).1
    = Some (BarterRequest.id row) /\
  barter_requests (store (getOrCreateConversation other (Some skill) st).2)
    = barter_requests (store st) ++ [row].
Proof.
  intros Huid Ht Hne Hex Hskill Hf row.
  rewrite (getOrCreateConversation_run st uid other _ Huid Ht Hne), Hex.
  simpl. rewrite Hskill, Hf. simpl. split; [reflexivity|].
  fetch_frame Hframe. destruct Hframe as [Hc _].
  by rewrite (barter_requests_contents _ _ Hc).
Qed.

(** The lookup of [getOrCreateConversation] with one row to find.  When
    exactly one barter-request has the current user as requester and the
    lookup goes through, a call for any other user returns the id of that
    request and writes nothing to the store, whether or not the other user
    takes part in it. *)
Theorem getOrCreate_returns_the_single_existing st uid other sk r0 :
  currentUserId (hook st) = Some uid -> truthy uid = true -> uid <> other ->
  failing (store st) = false ->
  filter (fun r => BarterRequest.requester_id r = uid)
         (barter_requests (store st)) = [r0] ->
  (getOrCreateConversation other sk st).1 = Some (BarterRequest.id r0) /\
  contents (store (getOrCreateConversation other sk st).2)
    = contents (store st).
Proof.
  intros Huid Ht Hne Hf Hone.
  rewrite (getOrCreateConversation_run st uid other sk Huid Ht Hne).
  unfold existing_request, select_request_of, rpc. rewrite Hf. simpl.
  rewrite Hone. simpl. split; [reflexivity|].
  fetch_frame Hframe. by destruct Hframe as [-> _].
Qed.

(** C6. When the lookup hands back no existing request: without a skill to
    offer the call returns no id, raises the select-a-skill toast and
    inserts nothing (the lookup is the only call made); with a skill to
    offer, and the insert going through, it appends exactly one
    barter-request row, with status pending, and returns the id of that
    row. *)
Theorem getOrCreate_without_existing st uid other sk :
  currentUserId (hook st) = Some uid -> truthy uid = true -> uid <> other ->
  existing_request uid (store st) = None ->
  let s := store st in
  let s1 := served (SelectRequestOf uid) s in
  let r := (getOrCreateConversation other sk st).1 in
  let st' := (getOrCreateConversation other sk st).2 in
  (truthy_opt sk = false ->
     r = None /\
     toasts st' = toasts st ++ ["Please select a skill to offer first"] /\
     trace (store st') = trace s ++ [SelectRequestOf uid] /\
     contents (store st') = contents s) /\
  (forall skill, sk = Some skill -> truthy skill = true ->
     failing s1 = false ->
     let row := created_request uid skill s1 in
     r = Some (BarterRequest.id row) /\
     BarterRequest.status row = "pending" /\
     barter_requests (store st') = barter_requests s ++ [row]).
Proof.
  intros Huid Ht Hne Hex s s1 r st'. unfold r, st'. split.
  - rewrite (getOrCreateConversation_run st uid other sk Huid Ht Hne), Hex.
    by intros ->.
  - intros skill -> Hskill Hf.
    destruct (getOrCreateConversation_creates st uid other skill
                Huid Ht Hne Hex Hskill Hf) as [Hr Hrows].
    by repeat split.
Qed.

(** C10. Past the self-conversation guard the other user's id is not used:
    two calls that differ only in the other user return the same result and
    leave the same state.  The row the creation branch inserts has the
    current user as requester and the offered skill as both requested and
    offered skill. *)
Theorem created_request_independent_of_other_user st uid other1 other2 sk :
  currentUserId (hook st) = Some uid -> truthy uid = true ->
  uid <> other1 -> uid <> other2 ->
  getOrCreateConversation other1 sk st = getOrCreateConversation other2 sk st /\
  (forall skill, sk = Some skill -> truthy skill = true ->
     existing_request uid (store st) = None ->
     failing (served (SelectRequestOf uid) (store st)) = false ->
     exists id ts,
       barter_requests (store (getOrCreateConversation other1 sk st).2)
       = barter_requests (store st)
         ++ [BarterRequest.mk id uid skill skill "pending" ts]).
Proof.
  intros Huid Ht Hne1 Hne2. split.
  - by rewrite !(getOrCreateConversation_run st uid _ sk Huid Ht).
  - intros skill -> Hskill Hex Hf.
    destruct (getOrCreateConversation_creates st uid other1 skill
                Huid Ht Hne1 Hex Hskill Hf) as [_ ->].
    by do 2 eexists.
Qed.

(** ** The in-memory threads *)

Lemma existsb_copies m l :
  existsb (fun x => str_eq (Message.id x) (Message.id m)) l = false <->
  copies m l = 0%nat.
Proof.
  unfold copies. induction l as [|x l IH]; [done|].
  rewrite filter_cons. simpl. unfold str_eq at 1.
  destruct (decide (Message.id x = Message.id m)) as [Heq|Hne].
  - rewrite bool_decide_eq_true_2 by done. simpl. split; discriminate.
  - rewrite bool_decide_eq_false_2 by done. simpl. exact IH.
Qed.

Lemma copies_snoc m l : copies m (l ++ [m]) = S (copies m l).
Proof.
  unfold copies. rewrite filter_app, length_app, filter_cons.
  rewrite decide_True by done. simpl. lia.
Qed.

Lemma merge_message_thread rid m prev :
  thread (merge_message rid m prev) rid =
  if existsb (fun x => str_eq (Message.id x) (Message.id m)) (thread prev rid)
  then thread prev rid else thread prev rid ++ [m].
Proof.
  unfold merge_message. fold (thread prev rid).
  destruct (existsb _ _); [reflexivity|].
  unfold thread at 1. by rewrite lookup_insert_eq.
Qed.

(** A second merge of the same message finds it and changes nothing. *)
Lemma merge_message_idempotent rid m prev :
  merge_message rid m (merge_message rid m prev) = merge_message rid m prev.
Proof.
  unfold merge_message at 1. fold (thread (merge_message rid m prev) rid).
  rewrite merge_message_thread.
  destruct (existsb _ (thread prev rid)) eqn:Hex.
  - by rewrite Hex.
  - rewrite existsb_app, Hex. simpl. unfold str_eq.
    by rewrite bool_decide_eq_true_2.
Qed.

Lemma on_message_insert_messages st m rid :
  Message.barter_request_id m = Some rid -> truthy rid = true ->
  messages (hook (on_message_insert m st).2)
  = merge_message rid m (messages (hook st)).
Proof.
  intros Hrid Ht. unfold on_message_insert. rewrite Hrid, Ht.
  unfold bind, setMessages, set_hook. simpl.
  fetch_frame Hframe. destruct Hframe as (_ & Hm & _).
  by destruct (fetchConversations _).
Qed.

Lemma on_message_insert_discards st m :
  truthy_opt (Message.barter_request_id m) = false ->
  on_message_insert m st = (tt, st).
Proof.
  unfold on_message_insert.
  destruct (Message.barter_request_id m) as [rid|]; simpl; [|done].
  by intros ->.
Qed.

(** C2. Delivering the same message-insert event twice: the second delivery
    leaves the in-memory threads as the first left them, and the thread then
    holds exactly one message with that id (the thread holding at most one
    to begin with, as it does when message ids are unique). *)
Theorem message_insert_idempotent st m rid :
  Message.barter_request_id m = Some rid -> truthy rid = true ->
  let st1 := (on_message_insert m st).2 in
  let st2 := (on_message_insert m st1).2 in
  messages (hook st2) = messages (hook st1) /\
  ((copies m (thread (messages (hook st)) rid) <= 1)%nat ->
   copies m (thread (messages (hook st2)) rid) = 1%nat).
Proof.
  intros Hrid Ht st1 st2. unfold st2, st1.
  rewrite !(on_message_insert_messages _ m rid Hrid Ht).
  rewrite merge_message_idempotent. split; [reflexivity|].
  intros Hle. rewrite merge_message_thread.
  destruct (existsb _ _) eqn:Hex.
  - destruct (copies m (thread (messages (hook st)) rid)) as [|n] eqn:Hn.
    + apply existsb_copies in Hn. congruence.
    + lia.
  - apply existsb_copies in Hex. rewrite copies_snoc. lia.
Qed.

Lemma fetchMessages_messages st rid :
  messages (hook (fetchMessages rid st).2) =
  if failing (store st) then messages (hook st)
  else <[rid := order_asc Message.created_at (thread_rows (store st) rid)]>
         (messages (hook st)).
Proof.
  unfold fetchMessages, bind, call, select_messages, rpc.
  by destruct (failing (store st)).
Qed.

(** A thread whose ids are unique holds any id at most once. *)
Lemma copies_unique_ids m l :
  NoDup (Message.id <$> l) -> (copies m l <= 1)%nat.
Proof.
  unfold copies. induction l as [|x l IH]; simpl; intros Hnd; [lia|].
  apply NoDup_cons in Hnd as [Hx Hnd]. rewrite filter_cons.
  destruct (decide (Message.id x = Message.id m)) as [Heq|Hne];
    [|by apply IH].
  simpl. destruct (filter _ l) as [|y l'] eqn:Hfilter; [simpl; lia|].
  exfalso. apply Hx.
  assert (y ∈ filter (fun z => Message.id z = Message.id m) l) as Hy
    by (rewrite Hfilter; apply elem_of_cons; by left).
  apply list_elem_of_filter in Hy as [Hid Hy].
  rewrite Heq, <- Hid. by apply list_elem_of_fmap_2.
Qed.

(** A history load of a table with unique ids gives a thread with unique
    ids. *)
Lemma fetchMessages_ids_unique st rid :
  NoDup (Message.id <$> messages_table (store st)) ->
  failing (store st) = false ->
  NoDup (Message.id <$> thread (messages (hook (fetchMessages rid st).2)) rid).
Proof.
  intros Hnd Hf. unfold thread.
  rewrite fetchMessages_messages, Hf, lookup_insert_eq. simpl.
  rewrite order_asc_perm. unfold thread_rows.
  eapply sublist_NoDup; [exact Hnd|].
  apply fmap_sublist, sublist_filter.
Qed.

(** Threads with unique ids keep them unique when an event is merged. *)
Lemma merge_message_ids_unique rid m prev rid' :
  NoDup (Message.id <$> thread prev rid') ->
  NoDup (Message.id <$> thread (merge_message rid m prev) rid').
Proof.
  intros Hnd. destruct (decide (rid' = rid)) as [->|Hne].
  - rewrite merge_message_thread.
    destruct (existsb _ _) eqn:Hex; [exact Hnd|].
    rewrite fmap_app. apply NoDup_app. split; [exact Hnd|].
    split; [|apply NoDup_singleton].
    intros i (x & -> & Hx)%list_elem_of_fmap Hi.
    apply list_elem_of_singleton in Hi.
    apply existsb_copies in Hex. unfold copies in Hex.
    apply length_zero_iff_nil in Hex.
    assert (x ∈ filter (fun y => Message.id y = Message.id m)
                       (thread prev rid)) as Hin
      by (by apply list_elem_of_filter).
    rewrite Hex in Hin. by apply elem_of_nil in Hin.
  - unfold merge_message. destruct (existsb _ _); [exact Hnd|].
    unfold thread at 1. by rewrite lookup_insert_ne.
Qed.


(** A live event on ordered threads leaves them ordered exactly when it is
    timely. *)
Lemma on_message_insert_ordered st m :
  threads_ordered st ->
  threads_ordered (on_message_insert m st).2 <-> timely m st.
Proof.
  intros Hord.
  destruct (truthy_opt (Message.barter_request_id m)) eqn:Htr.
  - destruct (Message.barter_request_id m) as [rid|] eqn:Hrid; [|done].
    simpl in Htr. unfold threads_ordered.
    rewrite (on_message_insert_messages st m rid Hrid Htr).
    unfold merge_message. fold (thread (messages (hook st)) rid).
    destruct (existsb _ _) eqn:Hex.
    + split; [|intros _; exact Hord].
      intros _ rid' x (Hrid' & _ & Hex') _.
      rewrite Hrid in Hrid'. injection Hrid' as <-. congruence.
    + split.
      * intros Hord' rid' x (Hrid' & _ & _) Hlast.
        rewrite Hrid in Hrid'. injection Hrid' as <-.
        specialize (Hord' rid _ (lookup_insert_eq _ _ _)).
        apply ascending_snoc in Hord' as [_ Hle]. by apply Hle.
      * intros Htimely rid' l.
        destruct (decide (rid = rid')) as [<-|Hne].
        -- rewrite lookup_insert_eq. intros [= <-].
           apply ascending_snoc. split.
           ++ unfold thread.
              destruct (messages (hook st) !! rid) as [l|] eqn:Hl; [|done].
              by apply (Hord rid).
           ++ intros x Hx. by apply (Htimely rid).
        -- rewrite lookup_insert_ne by done. apply Hord.
  - rewrite on_message_insert_discards by done. split; [|intros _; exact Hord].
    intros _ rid x (Hrid & Ht & _) _.
    rewrite Hrid in Htr. simpl in Htr. congruence.
Qed.

Lemma sync_step_ordered st st' :
  sync_step st st' -> threads_ordered st -> threads_ordered st'.
Proof.
  intros Hstep Hord. destruct Hstep as [rid st|m st Htimely].
  - intros rid' l. rewrite fetchMessages_messages.
    destruct (failing (store st)); [apply Hord|].
    destruct (decide (rid = rid')) as [->|Hne].
    + rewrite lookup_insert_eq. intros [= <-]. apply order_asc_ascending.
    + rewrite lookup_insert_ne by done. apply Hord.
  - by apply on_message_insert_ordered.
Qed.

(** C7, as the code has it.  A history load puts into memory the rows of
    the thread, each once, ascending by [created_at]; nothing is said of the
    order among rows with equal timestamps.  The in-memory threads stay
    ordered through any sequence of history loads and of live events in
    which every message that the handler appends is not older than the last
    one of its thread; replayed and discarded events are under no
    condition, the handler leaving the threads alone.  The condition is the
    exact one: after such a sequence, one more live event leaves the threads
    ordered if and only if it meets it. *)
Theorem threads_ordered_by_loads_and_timely_merges st st' :
  threads_ordered st -> rtc sync_step st st' ->
  threads_ordered st' /\
  (forall rid, failing (store st') = false ->
     let rows := thread_rows (store st') rid in
     let l := thread (messages (hook (fetchMessages rid st').2)) rid in
     ascending Message.created_at l = true /\ l ≡ₚ rows) /\
  (forall m, threads_ordered (on_message_insert m st').2 <-> timely m st').
Proof.
  intros Hord Hsteps.
  assert (threads_ordered st') as Hord'.
  { induction Hsteps as [st|st st1 st2 Hstep _ IH]; [exact Hord|].
    apply IH. by eapply sync_step_ordered. }
  split; [exact Hord'|]. split.
  - intros rid Hf rows l.
    assert (l = order_asc Message.created_at rows) as ->.
    { unfold l, thread. rewrite fetchMessages_messages, Hf.
      by rewrite lookup_insert_eq. }
    split; [apply order_asc_ascending | apply order_asc_perm].
  - intros m. by apply on_message_insert_ordered.
Qed.

(** ** Scenarios *)

(** Alice derives her list: r3 is dropped, r2 and r1 are listed, most
    recently active first. *)
Example demo_conversations :
  conversations (hook (fetchConversations (demo_state "alice" [])).2)
  = [Conversation.mk "r2" "carol" "Unknown User" "" None None (Some "r2");
     Conversation.mk "r1" "bob" "Bob" "" (Some (text_of "hi")) (Some 5)
                     (Some "r1")].
Proof. vm_compute. reflexivity. Qed.

(** Bob signs in: he owns the skill of r1 and has no part in r2 and r3. *)
Lemma uninvolved_request_never_listed_witness :
  let st := demo_state "bob" [] in
  let s := store st in
  let convs := conversations (hook (fetchConversations st).2) in
  (forall c, c ∈ convs ->
     exists r, r ∈ barter_requests s /\
               Conversation.id c = BarterRequest.id r /\
               involved "bob" (join_skill s r) = true) /\
  (NoDup (BarterRequest.id <$> barter_requests s) ->
   forall r, r ∈ barter_requests s ->
             involved "bob" (join_skill s r) = false ->
             BarterRequest.id r ∉ Conversation.id <$> convs).
Proof.
  apply (uninvolved_request_never_listed (demo_state "bob" []) "bob");
    reflexivity.
Defined.

(** The three-request scenario: r3 lost its skill, two conversations are
    listed and nothing is reported. *)
Lemma failed_lookups_drop_only_their_request_witness :
  let st' := (fetchConversations (demo_state "alice" [])).2 in
  Conversation.id <$> conversations (hook st') = ["r2"; "r1"] /\
  toasts st' = [] /\ console st' = [].
Proof.
  apply (failed_lookups_drop_only_their_request (demo_state "alice" [])
           "alice"); reflexivity.
Defined.

(** The store is down while a conversation is on screen. *)
Lemma failed_fetch_keeps_conversations_witness :
  let st' := (fetchConversations offline_state).2 in
  conversations (hook st') = conversations (hook offline_state) /\
  toasts st' = toasts offline_state ++ ["Failed to load conversations"] /\
  console st'
    = console offline_state
      ++ [("Error fetching conversations:", StoreUnreachable)] /\
  loading (hook st') = false /\
  contents (store st') = contents (store offline_state).
Proof.
  apply (failed_fetch_keeps_conversations offline_state "alice"); reflexivity.
Defined.

(** C8 as stated fails: the list shown before the failed fetch is still
    there after it. *)
Lemma failed_fetch_list_not_empty :
  failing (store offline_state) = true /\
  conversations (hook (fetchConversations offline_state).2)
  = [stale_conversation] /\
  conversations (hook (fetchConversations offline_state).2) <> [].
Proof. vm_compute. repeat split. discriminate. Qed.

(** Alice sends a short draft with blanks around it. *)
Lemma handleSendMessage_validates_locally_witness :
  let st := demo_state "alice" (text_of "  hello ") in
  let content := message (page st) in
  let st' := (handleSendMessage st).2 in
  let rejected :=
    trim content = [] \/ text_length (trim content) > MAX_MESSAGE_LENGTH in
  (trace (store st') = trace (store st) <-> rejected) /\
  (rejected -> store st' = store st) /\
  (~ rejected ->
   exists rest, trace (store st')
     = trace (store st) ++ InsertMessage "r1" "alice" (trim content) :: rest) /\
  (text_length (trim content) = MAX_MESSAGE_LENGTH -> ~ rejected) /\
  (forall rid c, trace (store (sendMessage rid c st).2) = trace (store st)
                 <-> trim c = []).
Proof.
  apply (handleSendMessage_validates_locally
           (demo_state "alice" (text_of "  hello ")) "r1" "alice");
    reflexivity.
Defined.

(** C1 as stated fails.  A draft of 2001 code units whose last one is a space
    is not rejected: its 2000 trimmed code units are inserted.  And
    [sendMessage], called directly, inserts 2001 letters. *)
Lemma padded_draft_reaches_store :
  text_length padded_draft > 2000 /\
  trace (store (handleSendMessage (demo_state "alice" padded_draft)).2)
  = [InsertMessage "r1" "alice" (repeat 97%N 2000);
     UpdateBarterRequest "r1" 200] /\
  trace (store (sendMessage "r1" (repeat 97%N 2001) (demo_state "alice" [])).2)
  = [InsertMessage "r1" "alice" (repeat 97%N 2001);
     UpdateBarterRequest "r1" 200].
Proof. split; [|split]; vm_compute; reflexivity. Qed.

(** The insert goes through and the update fails. *)
Lemma sendMessage_two_writes_not_atomic_witness :
  let st := demo_state_failing "alice" [false; true] in
  let s := store st in
  let st' := (sendMessage "r1" (text_of "hello") st).2 in
  let row := Message.mk (uuid s (minted s)) "alice" (trim (text_of "hello"))
                        (server_now s) (Some "r1") in
  (sendMessage "r1" (text_of "hello") st).1 = Returned tt /\
  trace (store st')
    = trace s ++ [InsertMessage "r1" "alice" (trim (text_of "hello"));
                  UpdateBarterRequest "r1" (client_now st)] /\
  messages_table (store st') = messages_table s ++ [row] /\
  row ∈ thread_rows (store st') "r1" /\
  (forall rest, faults s = false :: true :: rest ->
     barter_requests (store st') = barter_requests s).
Proof.
  apply (sendMessage_two_writes_not_atomic
           (demo_state_failing "alice" [false; true]) "r1" (text_of "hello")
           "alice"); try reflexivity.
  vm_compute. discriminate.
Defined.

(** Carol, requester of r2 alone, asks for Bob, who has no part in r2. *)
Lemma getOrCreate_returns_the_single_existing_witness :
  (getOrCreateConversation "bob" None (demo_state "carol" [])).1 = Some "r2" /\
  contents (store (getOrCreateConversation "bob" None (demo_state "carol" [])).2)
    = contents (store (demo_state "carol" [])).
Proof.
  apply (getOrCreate_returns_the_single_existing (demo_state "carol" [])
           "carol" "bob" None
           (BarterRequest.mk "r2" "carol" "s2" "s1" "pending" 20));
    try reflexivity.
  discriminate.
Defined.

(** C5 does not hold of the code.  Alice is the requester of two
    barter-requests, r1 and r3, and asks for the conversation with Bob,
    offering s2; every call goes through.  The lookup, a [.maybeSingle()]
    on all of her requests, finds two rows and hands back no data; its
    error is not looked at, the creation branch runs, a third request is
    inserted and its id returned, which is the id of neither r1 nor r3. *)
Theorem getOrCreate_second_request_duplicates :
  let st := demo_state "alice" [] in
  let result := getOrCreateConversation "bob" (Some "s2") st in
  BarterRequest.id <$>
    filter (fun r => BarterRequest.requester_id r = "alice")
           (barter_requests (store st)) = ["r1"; "r3"] /\
  existing_request "alice" (store st) = None /\
  result.1 = Some "generated-0" /\
  barter_requests (store result.2)
  = barter_requests (store st)
    ++ [BarterRequest.mk "generated-0" "alice" "s2" "s2" "pending" 100] /\
  take 2 (trace (store result.2))
  = [SelectRequestOf "alice"; InsertBarterRequest "alice" "s2" "s2" "pending"].
Proof. vm_compute. repeat split. Qed.

(** Bob, requester of nothing, asks for Alice. *)
Lemma getOrCreate_without_existing_witness :
  let st := demo_state "bob" [] in
  let sk := Some "s1" in
  let s := store st in
  let s1 := served (SelectRequestOf "bob") s in
  let r := (getOrCreateConversation "alice" sk st).1 in
  let st' := (getOrCreateConversation "alice" sk st).2 in
  (truthy_opt sk = false ->
     r = None /\
     toasts st' = toasts st ++ ["Please select a skill to offer first"] /\
     trace (store st') = trace s ++ [SelectRequestOf "bob"] /\
     contents (store st') = contents s) /\
  (forall skill, sk = Some skill -> truthy skill = true ->
     failing s1 = false ->
     let row := created_request "bob" skill s1 in
     r = Some (BarterRequest.id row) /\
     BarterRequest.status row = "pending" /\
     barter_requests (store st') = barter_requests s ++ [row]).
Proof.
  apply (getOrCreate_without_existing (demo_state "bob" []) "bob" "alice"
           (Some "s1")); try reflexivity.
  discriminate.
Defined.

(** The scenario of C6: first without a skill, then with one. *)
Example getOrCreate_scenario :
  let st := demo_state "bob" [] in
  let st1 := (getOrCreateConversation "alice" None st).2 in
  (getOrCreateConversation "alice" None st).1 = None /\
  toasts st1 = ["Please select a skill to offer first"] /\
  barter_requests (store st1) = barter_requests (store st) /\
  (getOrCreateConversation "alice" (Some "s1") st1).1 = Some "generated-0" /\
  barter_requests (store (getOrCreateConversation "alice" (Some "s1") st1).2)
  = barter_requests (store st)
    ++ [BarterRequest.mk "generated-0" "bob" "s1" "s1" "pending" 100].
Proof. vm_compute. repeat split. Qed.

(** Bob asks for Alice, or for Carol, offering s1. *)
Lemma created_request_independent_of_other_user_witness :
  let st := demo_state "bob" [] in
  getOrCreateConversation "alice" (Some "s1") st
  = getOrCreateConversation "carol" (Some "s1") st /\
  (forall skill, Some "s1" = Some skill -> truthy skill = true ->
     existing_request "bob" (store st) = None ->
     failing (served (SelectRequestOf "bob") (store st)) = false ->
     exists id ts,
       barter_requests
         (store (getOrCreateConversation "alice" (Some "s1") st).2)
       = barter_requests (store st)
         ++ [BarterRequest.mk id "bob" skill skill "pending" ts]).
Proof.
  apply (created_request_independent_of_other_user (demo_state "bob" [])
           "bob" "alice" "carol" (Some "s1")); try reflexivity;
    discriminate.
Defined.

(** The same event twice, on an empty session. *)
Lemma message_insert_idempotent_witness :
  let st := demo_state "alice" [] in
  let st1 := (on_message_insert late_message st).2 in
  let st2 := (on_message_insert late_message st1).2 in
  messages (hook st2) = messages (hook st1) /\
  copies late_message (thread (messages (hook st2)) "r1") = 1%nat.
Proof.
  destruct (message_insert_idempotent (demo_state "alice" []) late_message
              "r1" eq_refl eq_refl) as [Hsame Hone].
  split; [exact Hsame|]. apply Hone. vm_compute. lia.
Defined.

Lemma demo_threads_ordered uid draft : threads_ordered (demo_state uid draft).
Proof. intros rid l. simpl. by rewrite lookup_empty. Qed.

Lemma late_message_timely :
  timely late_message (fetchMessages "r1" (demo_state "alice" [])).2.
Proof.
  intros rid x ([= <-] & _ & _). vm_compute. intros [= <-]. discriminate.
Qed.

(** The event of a message that the thread holds is timely, whatever its
    timestamp. *)
Lemma replayed_message_timely :
  timely replayed_message
         (on_message_insert late_message
            (fetchMessages "r1" (demo_state "alice" [])).2).2.
Proof.
  intros rid x ([= <-] & _ & Hex). vm_compute in Hex. discriminate.
Qed.

(** A history load of r1, the event of a newer message, and a replayed
    event of the message loaded first. *)
Lemma threads_ordered_by_loads_and_timely_merges_witness :
  let st := demo_state "alice" [] in
  let st' :=
    (on_message_insert replayed_message
       (on_message_insert late_message (fetchMessages "r1" st).2).2).2 in
  threads_ordered st' /\
  (forall rid, failing (store st') = false ->
     let rows := thread_rows (store st') rid in
     let l := thread (messages (hook (fetchMessages rid st').2)) rid in
     ascending Message.created_at l = true /\ l ≡ₚ rows) /\
  (forall m, threads_ordered (on_message_insert m st').2 <-> timely m st').
Proof.
  apply (threads_ordered_by_loads_and_timely_merges (demo_state "alice" [])).
  - apply demo_threads_ordered.
  - eapply rtc_l; [apply (sync_load "r1")|].
    eapply rtc_l; [apply (sync_merge late_message), late_message_timely|].
    eapply rtc_l; [apply sync_merge, replayed_message_timely|].
    apply rtc_refl.
Defined.

(** C7 as stated fails: after the load the thread is ordered; the event for
    an older message is appended behind the newer one. *)
Lemma early_message_breaks_order :
  let st := (fetchMessages "r1" (demo_state "alice" [])).2 in
  let st' := (on_message_insert early_message st).2 in
  ascending Message.created_at (thread (messages (hook st)) "r1") = true /\
  Message.created_at <$> thread (messages (hook st')) "r1" = [5; 3] /\
  ascending Message.created_at (thread (messages (hook st')) "r1") = false.
Proof. vm_compute. repeat split. Qed.

(** * Beyond the claims *)

(** ** More on the store's ordering *)

Lemma insert_desc_as_asc {A} (key : A -> Z) x l :
  insert_desc key x l = insert_asc (fun y => - key y) x l.
Proof.
  induction l as [|y l IH]; [reflexivity|]. simpl. rewrite IH.
  destruct (Z.leb_spec (key y) (key x)), (Z.leb_spec (- key x) (- key y));
    (reflexivity || lia).
Qed.

Lemma order_desc_as_asc {A} (key : A -> Z) l :
  order_desc key l = order_asc (fun y => - key y) l.
Proof.
  induction l as [|x l IH]; [reflexivity|].
  simpl. by rewrite IH, insert_desc_as_asc.
Qed.

Lemma order_desc_descending {A} (key : A -> Z) l :
  descending key (order_desc key l) = true.
Proof.
  unfold descending. rewrite order_desc_as_asc. apply order_asc_ascending.
Qed.

Lemma ascending_sublist {A} (key : A -> Z) (l1 l2 : list A) :
  l1 `sublist_of` l2 -> ascending key l2 = true -> ascending key l1 = true.
Proof.
  induction 1 as [|x l1 l2 Hsub IH|x l1 l2 Hsub IH]; intros Hasc.
  - reflexivity.
  - pose proof Hasc as [_ Hl2]%ascending_cons.
    apply ascending_cons. split; [|by apply IH].
    intros y Hy. apply (ascending_head_le key x l2 y Hasc).
    apply (sublist_subseteq _ _ Hsub).
    destruct l1; simplify_eq/=. apply elem_of_cons. by left.
  - apply ascending_cons in Hasc as [_ Hl2]. by apply IH.
Qed.

(** A row newer than all the others sorts last ascending ... *)
Lemma order_asc_snoc {A} (key : A -> Z) l x :
  (forall y, y ∈ l -> key y <= key x) ->
  order_asc key (l ++ [x]) = order_asc key l ++ [x].
Proof.
  induction l as [|y l IH]; intros Hle; [reflexivity|].
  change (order_asc key ((y :: l) ++ [x]))
    with (insert_asc key y (order_asc key (l ++ [x]))).
  rewrite IH by (intros; apply Hle, elem_of_cons; by right).
  change (order_asc key (y :: l)) with (insert_asc key y (order_asc key l)).
  assert (key y <= key x) as Hy by (apply Hle, elem_of_cons; by left).
  generalize (order_asc key l). intros s.
  induction s as [|z s IHs]; simpl.
  - by rewrite (proj2 (Z.leb_le _ _) Hy).
  - destruct (key y <=? key z); [reflexivity|]. simpl. by rewrite IHs.
Qed.

(** ... and first descending, when it is strictly newer. *)
Lemma order_desc_snoc {A} (key : A -> Z) l x :
  (forall y, y ∈ l -> key y < key x) ->
  order_desc key (l ++ [x]) = x :: order_desc key l.
Proof.
  induction l as [|y l IH]; intros Hlt; [reflexivity|].
  change (order_desc key ((y :: l) ++ [x]))
    with (insert_desc key y (order_desc key (l ++ [x]))).
  rewrite IH by (intros; apply Hlt, elem_of_cons; by right).
  assert (key y < key x) as Hy by (apply Hlt, elem_of_cons; by left).
  simpl. by rewrite (proj2 (Z.leb_gt _ _) Hy).
Qed.

Lemma head_insert_desc {A} (key : A -> Z) x l :
  head (insert_desc key x l) =
  match l with
  | [] => Some x
  | y :: _ => if key y <=? key x then Some x else Some y
  end.
Proof. destruct l as [|y l]; [reflexivity|]. simpl. by destruct (_ <=? _). Qed.

(** The row that is strictly the most recent comes first. *)
Lemma head_order_desc {A} (key : A -> Z) (l : list A) x :
  x ∈ l -> (forall y, y ∈ l -> y = x \/ key y < key x) ->
  head (order_desc key l) = Some x.
Proof.
  induction l as [|a l IH]; intros Hx Hmax; [by apply elem_of_nil in Hx|].
  change (order_desc key (a :: l)) with (insert_desc key a (order_desc key l)).
  rewrite head_insert_desc.
  destruct (Hmax a) as [->|Ha]; [apply elem_of_cons; by left| |].
  - destruct (order_desc key l) as [|h s] eqn:Hs; [reflexivity|].
    assert (h ∈ l) as Hh
      by (rewrite <- (order_desc_perm key l), Hs; apply elem_of_cons; by left).
    destruct (Hmax h) as [->|Hlt]; [apply elem_of_cons; by right| |].
    + by rewrite Z.leb_refl.
    + by rewrite (proj2 (Z.leb_le _ _)) by lia.
  - apply elem_of_cons in Hx as [->|Hx]; [lia|].
    assert (head (order_desc key l) = Some x) as Hh
      by (apply IH; [done|intros y Hy; apply Hmax, elem_of_cons; by right]).
    destruct (order_desc key l) as [|h s]; [done|].
    simpl in Hh. injection Hh as ->. by rewrite (proj2 (Z.leb_gt _ _) Ha).
Qed.

(** ** More on the conversation loop *)

Lemma select_profile_data st other p :
  data (call (select_profile other) st).1 = Some p ->
  p ∈ profiles_public (store st) /\ Profile.id p = other.
Proof.
  unfold call, select_profile, rpc.
  destruct (failing (store st)); simpl; [discriminate|].
  destruct (filter _ _) as [|a [|b l]] eqn:Hfilter; simpl; try discriminate.
  intros [= <-].
  assert (a ∈ filter (fun q => Profile.id q = other)
                     (profiles_public (store st))) as Ha
    by (rewrite Hfilter; apply elem_of_cons; by left).
  by apply list_elem_of_filter in Ha as [? ?].
Qed.

Lemma derived_from_contents uid s s' c row :
  contents s' = contents s ->
  derived_from uid s' c row -> derived_from uid s c row.
Proof.
  intros H. unfold derived_from. by rewrite (profiles_contents _ _ H).
Qed.

Lemma conversation_step_derived uid row acc st :
  (conversation_step uid row acc st).1 = acc \/
  exists c, (conversation_step uid row acc st).1 = acc ++ [c] /\
            derived_from uid (store st) c row.
Proof.
  rewrite conversation_step_roles.
  destruct (involved uid row) eqn:Hinv; [|by left].
  destruct (counterpart uid row) as [other|] eqn:Hother; [|by left].
  destruct (truthy other) eqn:Hto; [|by left].
  unfold bind.
  pose proof (select_profile_data st other) as Hp.
  destruct (call (select_profile other) st) as [profile st1].
  destruct (call (select_last_message _) st1) as [lastMsg st2].
  destruct (data profile) as [p|] eqn:Hdata; [|by left].
  destruct (Hp p Hdata) as [Hin Hid].
  right. eexists. split; [reflexivity|].
  unfold derived_from. simpl. rewrite Hid.
  repeat split; try done. exists p. by repeat split.
Qed.

Lemma conversation_loop_derived uid rows acc st :
  exists new rows',
    (conversation_loop uid rows acc st).1 = acc ++ new /\
    rows' `sublist_of` rows /\
    Forall2 (derived_from uid (store st)) new rows'.
Proof.
  revert acc st. induction rows as [|row rows IH]; intros acc st; simpl.
  - exists [], []. by rewrite app_nil_r.
  - unfold bind.
    pose proof (conversation_step_derived uid row acc st) as Hstep.
    pose proof (conversation_step_reads uid row acc st) as [Hc _].
    destruct (conversation_step uid row acc st) as [acc' st1].
    destruct (IH acc' st1) as (new & rows' & -> & Hsub & Hall).
    assert (Forall2 (derived_from uid (store st)) new rows') as Hall'.
    { eapply Forall2_impl; [exact Hall|].
      intros c r. by apply derived_from_contents. }
    simpl in Hstep. destruct Hstep as [->|(c & -> & Hd)].
    + exists new, rows'. split; [done|]. split; [|done].
      by apply sublist_cons_r; left.
    + exists (c :: new), (row :: rows'). rewrite <- app_assoc. split; [done|].
      split; [by apply sublist_skip|]. by constructor.
Qed.

(** The calls of the loop are reads. *)
Lemma conversation_step_trace uid row acc st :
  exists extra,
    trace (store (conversation_step uid row acc st).2)
      = trace (store st) ++ extra /\
    Forall (fun c => is_query c = true) extra.
Proof.
  rewrite conversation_step_roles.
  destruct (involved uid row);
    [|exists []; by rewrite app_nil_r].
  destruct (counterpart uid row) as [other|];
    [|exists []; by rewrite app_nil_r].
  destruct (truthy other); [|exists []; by rewrite app_nil_r].
  unfold bind, select_profile, select_last_message.
  match goal with |- context [call (rpc ?c ?q) st] =>
    pose proof (call_query_store c (fun s => fst (q s)) st) as H1;
    destruct (call (rpc c q) st) as [profile st1] eqn:E1 end.
  match goal with |- context [call (rpc ?c ?q) st1] =>
    pose proof (call_query_store c (fun s => fst (q s)) st1) as H2;
    destruct (call (rpc c q) st1) as [lastMsg st2] eqn:E2 end.
  simpl in H1, H2. rewrite E1 in H1. rewrite E2 in H2. simpl in H1, H2.
  exists [SelectProfile other;
          SelectLastMessage (BarterRequest.id (RequestRow.request row))].
  split; [|by repeat constructor].
  destruct (data profile); simpl; rewrite H2, H1; simpl;
    by rewrite <- app_assoc.
Qed.

Lemma conversation_loop_trace uid rows acc st :
  exists extra,
    trace (store (conversation_loop uid rows acc st).2)
      = trace (store st) ++ extra /\
    Forall (fun c => is_query c = true) extra.
Proof.
  revert acc st. induction rows as [|row rows IH]; intros acc st; simpl.
  - exists []. by rewrite app_nil_r.
  - unfold bind.
    destruct (conversation_step_trace uid row acc st) as (e1 & H1 & Hq1).
    destruct (conversation_step uid row acc st) as [acc' st1].
    destruct (IH acc' st1) as (e2 & H2 & Hq2). simpl in H1.
    exists (e1 ++ e2). rewrite H2, H1, <- app_assoc.
    split; [done|]. by apply Forall_app.
Qed.

Lemma conversation_loop_faults uid rows acc st :
  faults (store st) = [] ->
  faults (store (conversation_loop uid rows acc st).2) = [].
Proof.
  revert acc st. induction rows as [|row rows IH]; intros acc st Hf; simpl.
  - exact Hf.
  - unfold bind.
    destruct (conversation_step_no_faults uid row acc st Hf) as [_ Hf'].
    destruct (conversation_step uid row acc st) as [acc' st1].
    by apply IH.
Qed.

Lemma fetchConversations_faults st :
  faults (store st) = [] -> faults (store (fetchConversations st).2) = [].
Proof.
  intros Hf. unfold fetchConversations.
  destruct (currentUserId (hook st)) as [uid|]; [|done].
  destruct (negb (truthy uid)); [done|].
  unfold bind, call, select_barter_requests, rpc.
  rewrite (failing_no_faults _ Hf). simpl.
  match goal with |- context [conversation_loop uid ?rows [] ?st0] =>
    pose proof (conversation_loop_faults uid rows [] st0) as H;
    destruct (conversation_loop uid rows [] st0) as [convList st1] end.
  simpl in *. apply H. by rewrite Hf.
Qed.

(** ** The derived list *)

(** X1.  Whatever becomes of the per-request lookups, a derivation whose
    top-level fetch goes through lists conversations in the order of the
    fetch: each one made of its own request, the requests being a
    subsequence of the fetched rows, most recently active first. *)
Theorem conversations_most_recent_first st uid :
  currentUserId (hook st) = Some uid -> truthy uid = true ->
  failing (store st) = false ->
  exists rows,
    rows `sublist_of` request_rows (store st) /\
    Forall2 (derived_from uid (store st))
            (conversations (hook (fetchConversations st).2)) rows /\
    descending activity rows = true.
Proof.
  intros Huid Ht Hf.
  rewrite (fetchConversations_fetched st uid Huid Ht Hf).
  destruct (conversation_loop_derived uid (request_rows (store st)) []
              (with_store (served SelectBarterRequests (store st)) st))
    as (new & rows & -> & Hsub & Hall).
  exists rows. split; [exact Hsub|]. split; [exact Hall|].
  unfold descending. eapply ascending_sublist; [exact Hsub|].
  apply (order_desc_descending activity).
Qed.

Lemma Forall2_fmap_eq {A B C} (R : A -> B -> Prop) (f : A -> C) (g : B -> C)
    (l : list A) (k : list B) :
  Forall2 R l k -> (forall a b, R a b -> f a = g b) -> f <$> l = g <$> k.
Proof.
  intros Hall Hfg. induction Hall as [|a b l k Hab _ IH]; [reflexivity|].
  rewrite !fmap_cons. by rewrite (Hfg a b Hab), IH.
Qed.

(** X2.  With unique request ids the derived list holds at most one
    conversation per request, and every entry is fit for display: it
    carries its request id as [barter_request_id], a participant who has a
    public profile and a non-empty id, and a non-empty name. *)
Theorem conversations_unique_and_named st uid :
  currentUserId (hook st) = Some uid -> truthy uid = true ->
  failing (store st) = false ->
  let convs := conversations (hook (fetchConversations st).2) in
  (NoDup (BarterRequest.id <$> barter_requests (store st)) ->
   NoDup (Conversation.id <$> convs)) /\
  (length convs <= length (barter_requests (store st)))%nat /\
  forall c, c ∈ convs ->
    Conversation.barter_request_id c = Some (Conversation.id c) /\
    Conversation.participant_name c <> "" /\
    Conversation.participant_id c <> "" /\
    exists p, p ∈ profiles_public (store st) /\
              Profile.id p = Conversation.participant_id c.
Proof.
  intros Huid Ht Hf convs. unfold convs.
  rewrite (fetchConversations_fetched st uid Huid Ht Hf).
  pose proof (conversation_loop_derived uid (request_rows (store st)) []
              (with_store (served SelectBarterRequests (store st)) st))
    as (new & rows & Hnew & Hsub & Hall).
  rewrite Hnew. change ([] ++ new) with new. simpl in Hall. split; [|split].
  - intros Hnd.
    rewrite (Forall2_fmap_eq _ Conversation.id
               (fun row => BarterRequest.id (RequestRow.request row))
               new rows Hall) by (by intros c r (_ & ? & _)).
    eapply sublist_NoDup; [|apply fmap_sublist, Hsub].
    unfold request_rows. rewrite order_desc_perm, <- list_fmap_compose.
    exact Hnd.
  - rewrite (Forall2_length _ _ _ Hall), (sublist_length _ _ Hsub).
    unfold request_rows.
    by rewrite (Permutation_length (order_desc_perm _ _)), length_fmap.
  - intros c Hc.
    destruct (proj1 (list_elem_of_lookup new c) Hc) as [i Hi].
    destruct (Forall2_lookup_l _ _ _ _ _ Hall Hi) as (row & _ & Hd).
    destruct Hd as (_ & _ & Hbr & _ & Hto & p & Hp & Hid & Hname & _).
    split; [exact Hbr|]. split; [|split; [|by exists p]].
    + rewrite Hname. unfold or_default.
      destruct (Profile.full_name p) as [n|]; [|done].
      by destruct n.
    + by destruct (Conversation.participant_id c).
Qed.

(** X3.  [fetchConversations] only reads: whatever the state and whatever
    fails, the store's data is as before, every call it made is a select,
    and the threads, the user and the chat page are untouched. *)
Theorem fetchConversations_only_reads st :
  let st' := (fetchConversations st).2 in
  contents (store st') = contents (store st) /\
  (exists extra, trace (store st') = trace (store st) ++ extra /\
                 Forall (fun c => is_query c = true) extra) /\
  messages (hook st') = messages (hook st) /\
  currentUserId (hook st') = currentUserId (hook st) /\
  page st' = page st.
Proof.
  intros st'. destruct (fetchConversations_frame st) as (Hc & Hm & Hu & Hp & _).
  split; [exact Hc|]. split; [|done].
  unfold st', fetchConversations.
  destruct (currentUserId (hook st)) as [uid|];
    [|exists []; by rewrite app_nil_r].
  destruct (negb (truthy uid)); [exists []; by rewrite app_nil_r|].
  unfold bind, call, select_barter_requests, rpc.
  destruct (failing (store st)); simpl.
  - exists [SelectBarterRequests]. split; [done|]. by repeat constructor.
  - match goal with |- context [conversation_loop uid ?rows [] ?st0] =>
      destruct (conversation_loop_trace uid rows [] st0) as (e & He & Hq);
      destruct (conversation_loop uid rows [] st0) as [convList st1] end.
    simpl in *. exists (SelectBarterRequests :: e). rewrite He.
    split; [by rewrite <- app_assoc|]. by constructor.
Qed.

(** ** The guards *)

(** X4.  Without a signed-in user (no id, or an empty one) the hook's
    operations return at once: the derivation, the send and the bootstrap
    make no store call, raise nothing and leave the state as it is, and the
    bootstrap answers [null]. *)
Theorem signed_out_operations_do_nothing st :
  truthy_opt (currentUserId (hook st)) = false ->
  fetchConversations st = (tt, st) /\
  (forall rid content, sendMessage rid content st = (Returned tt, st)) /\
  (forall other skill, getOrCreateConversation other skill st = (None, st)).
Proof.
  intros Hu. unfold fetchConversations, sendMessage, getOrCreateConversation.
  destruct (currentUserId (hook st)) as [uid|]; [|done].
  simpl in Hu. by rewrite Hu.
Qed.

(** ** More on [getOrCreateConversation] *)

(** X5.  A user asking for a conversation with themself gets [null]: no store
    call, no toast, the state as it was.  When the insert of the creation
    branch fails the answer is [null] too: the failure is logged and
    toasted, no request is added and the conversation list is not derived
    again. *)
Theorem getOrCreate_null_answers st uid :
  currentUserId (hook st) = Some uid ->
  (forall skill, getOrCreateConversation uid skill st = (None, st)) /\
  (forall other skill,
     truthy uid = true -> uid <> other ->
     existing_request uid (store st) = None -> truthy skill = true ->
     failing (served (SelectRequestOf uid) (store st)) = true ->
     let st' := (getOrCreateConversation other (Some skill) st).2 in
     (getOrCreateConversation other (Some skill) st).1 = None /\
     toasts st' = toasts st ++ ["Failed to start conversation"] /\
     console st'
       = console st ++ [("Error creating conversation:", StoreUnreachable)] /\
     contents (store st') = contents (store st) /\
     hook st' = hook st).
Proof.
  intros Huid. split.
  - intros skill. unfold getOrCreateConversation. rewrite Huid.
    unfold str_eq. rewrite bool_decide_eq_true_2 by done.
    by rewrite orb_true_r.
  - intros other skill Ht Hne Hex Hskill Hf.
    rewrite (getOrCreateConversation_run st uid other _ Huid Ht Hne), Hex.
    simpl. by rewrite Hskill, Hf.
Qed.

(** X6.  Find-or-create settles after one creation.  A user who is the
    requester of no request and offers a skill gets a new request; asking
    again, for whichever other user and with or without a skill, returns the
    id of that same request and adds nothing (no call failing). *)
Theorem getOrCreate_twice_creates_once st uid other1 other2 skill skill2 :
  currentUserId (hook st) = Some uid -> truthy uid = true ->
  uid <> other1 -> uid <> other2 -> truthy skill = true ->
  faults (store st) = [] ->
  filter (fun r => BarterRequest.requester_id r = uid)
         (barter_requests (store st)) = [] ->
  let first := getOrCreateConversation other1 (Some skill) st in
  let second := getOrCreateConversation other2 skill2 first.2 in
  let row := created_request uid skill (store st) in
  first.1 = Some (BarterRequest.id row) /\
  second.1 = first.1 /\
  barter_requests (store first.2) = barter_requests (store st) ++ [row] /\
  barter_requests (store second.2) = barter_requests (store first.2).
Proof.
  intros Huid Ht Hne1 Hne2 Hskill Hf Hnone first second row.
  assert (existing_request uid (store st) = None) as Hex.
  { unfold existing_request, select_request_of, rpc.
    rewrite (failing_no_faults _ Hf). simpl. by rewrite Hnone. }
  assert (failing (served (SelectRequestOf uid) (store st)) = false) as Hf1
    by (apply failing_no_faults; simpl; by rewrite Hf).
  destruct (getOrCreateConversation_creates st uid other1 skill
              Huid Ht Hne1 Hex Hskill Hf1) as [Hr Hrows].
  fold first in Hr, Hrows.
  change (created_request uid skill (served (SelectRequestOf uid) (store st)))
    with row in Hr, Hrows.
  assert (currentUserId (hook first.2) = Some uid) as Huid1.
  { unfold first.
    rewrite (getOrCreateConversation_run st uid other1 _ Huid Ht Hne1), Hex.
    simpl. rewrite Hskill, Hf1. simpl.
    fetch_frame Hframe. destruct Hframe as (_ & _ & -> & _). exact Huid. }
  assert (faults (store first.2) = []) as Hf2.
  { unfold first.
    rewrite (getOrCreateConversation_run st uid other1 _ Huid Ht Hne1), Hex.
    simpl. rewrite Hskill, Hf1. simpl.
    apply fetchConversations_faults. simpl. by rewrite Hf. }
  assert (existing_request uid (store first.2) = Some (BarterRequest.id row))
    as Hex2.
  { unfold existing_request, select_request_of, rpc.
    rewrite (failing_no_faults _ Hf2). simpl.
    rewrite Hrows, filter_app, Hnone, filter_cons, filter_nil.
    by rewrite decide_True. }
  split; [exact Hr|]. split; [|split; [exact Hrows|]].
  - unfold second.
    rewrite (getOrCreateConversation_run _ uid other2 _ Huid1 Ht Hne2), Hex2.
    by rewrite Hr.
  - unfold second.
    rewrite (getOrCreateConversation_run _ uid other2 _ Huid1 Ht Hne2), Hex2.
    simpl. fetch_frame Hframe. destruct Hframe as [Hc _].
    by rewrite (barter_requests_contents _ _ Hc).
Qed.

(** The derived list, when no call fails. *)
Lemma fetchConversations_derives st uid :
  currentUserId (hook st) = Some uid -> truthy uid = true ->
  faults (store st) = [] ->
  conversations (hook (fetchConversations st).2)
  = omap (conversation_of uid (store st)) (request_rows (store st)).
Proof.
  intros Huid Ht Hf.
  rewrite (fetchConversations_fetched st uid Huid Ht (failing_no_faults _ Hf)).
  by rewrite conversation_loop_no_faults by (simpl; by rewrite Hf).
Qed.

Lemma profile_of_id s uid p : profile_of s uid = Some p -> Profile.id p = uid.
Proof.
  unfold profile_of.
  destruct (filter _ _) as [|a [|b l]] eqn:Hfilter; simpl; try discriminate.
  intros [= <-].
  assert (a ∈ filter (fun q => Profile.id q = uid) (profiles_public s)) as Ha
    by (rewrite Hfilter; apply elem_of_cons; by left).
  by apply list_elem_of_filter in Ha as [? ?].
Qed.

(** X7.  The conversation that stands for a request created by the bootstrap
    is a conversation with the owner of the offered skill, whoever the other
    user of the call was: the request asks for the very skill it offers, so
    its counterpart is that skill's owner (the caller, for a skill of their
    own). *)
Theorem created_conversation_is_with_skill_owner st uid other skill owner p :
  currentUserId (hook st) = Some uid -> truthy uid = true -> uid <> other ->
  truthy skill = true -> faults (store st) = [] ->
  filter (fun r => BarterRequest.requester_id r = uid)
         (barter_requests (store st)) = [] ->
  Skill.user_id
    <$> find (fun k => str_eq (Skill.id k) skill) (skills (store st))
    = Some owner ->
  truthy owner = true -> profile_of (store st) owner = Some p ->
  let result := getOrCreateConversation other (Some skill) st in
  exists c, c ∈ conversations (hook result.2) /\
            Some (Conversation.id c) = result.1 /\
            Conversation.participant_id c = owner.
Proof.
  intros Huid Ht Hne Hskill Hf Hnone Hown Hto Hp result.
  assert (existing_request uid (store st) = None) as Hex.
  { unfold existing_request, select_request_of, rpc.
    rewrite (failing_no_faults _ Hf). simpl. by rewrite Hnone. }
  assert (failing (served (SelectRequestOf uid) (store st)) = false) as Hf1
    by (apply failing_no_faults; simpl; by rewrite Hf).
  unfold result.
  rewrite (getOrCreateConversation_run st uid other _ Huid Ht Hne), Hex.
  simpl. rewrite Hskill, Hf1. simpl.
  rewrite (fetchConversations_derives _ uid) by (simpl; by rewrite ?Hf).
  simpl.
  set (row := created_request uid skill
                (served (SelectRequestOf uid) (store st))).
  set (s2 := set_minted _ _).
  assert (join_skill s2 row ∈ request_rows s2) as Hin.
  { apply elem_of_request_rows. exists row. split; [|done].
    unfold s2. simpl. apply elem_of_app. right. apply elem_of_cons. by left. }
  pose proof (profile_of_id _ _ _ Hp) as Hpid.
  eexists. split.
  - apply list_elem_of_omap. exists (join_skill s2 row). split; [exact Hin|].
    unfold conversation_of, involved, counterpart, requester_of, owner_of.
    simpl. unfold str_eq at 1. rewrite bool_decide_eq_true_2 by done.
    simpl. unfold str_eq at 1. rewrite bool_decide_eq_true_2 by done.
    rewrite Hown. simpl. rewrite Hto.
    change (profile_of s2 owner) with (profile_of (store st) owner).
    rewrite Hp. simpl. reflexivity.
  - simpl. by rewrite Hpid.
Qed.

(** ** More on the threads *)

(** X8.  [fetchMessages] asks the store for one thread and replaces that
    thread alone.  When the call fails every thread stays as it was and the
    failure is logged and toasted; when it goes through nothing is
    reported.  It writes nothing to the store and does not look at who is
    signed in. *)
Theorem fetchMessages_replaces_one_thread st rid :
  let st' := (fetchMessages rid st).2 in
  contents (store st') = contents (store st) /\
  trace (store st') = trace (store st) ++ [SelectMessages rid] /\
  conversations (hook st') = conversations (hook st) /\
  (forall rid', rid' <> rid ->
     messages (hook st') !! rid' = messages (hook st) !! rid') /\
  if failing (store st)
  then messages (hook st') = messages (hook st) /\
       toasts st' = toasts st ++ ["Failed to load messages"] /\
       console st'
         = console st ++ [("Error fetching messages:", StoreUnreachable)]
  else messages (hook st') !! rid
         = Some (order_asc Message.created_at (thread_rows (store st) rid)) /\
       toasts st' = toasts st /\ console st' = console st.
Proof.
  unfold fetchMessages, bind, call, select_messages, rpc.
  destruct (failing (store st)); simpl; repeat split; try done.
  - intros rid' Hne. by rewrite lookup_insert_ne.
  - by rewrite lookup_insert_eq.
Qed.

Lemma thread_rows_snoc s rid row :
  Message.barter_request_id row = Some rid ->
  filter (fun m => Message.barter_request_id m = Some rid)
         (messages_table s ++ [row])
  = thread_rows s rid ++ [row].
Proof.
  intros Hrid. unfold thread_rows.
  by rewrite filter_app, filter_cons, filter_nil, decide_True.
Qed.

(** X9.  Send, then load.  After a send whose insert goes through, a history
    load of that thread shows the messages stored before, in order, followed
    by the one just sent: trimmed content, the current user as sender (the
    store's clock being ahead of every stored message of the thread, so
    that the sent message is the one latest row, and no call failing). *)
Theorem sent_message_closes_loaded_thread st rid content uid :
  currentUserId (hook st) = Some uid -> truthy uid = true ->
  trim content <> [] -> faults (store st) = [] ->
  (forall m, m ∈ thread_rows (store st) rid ->
             Message.created_at m < server_now (store st)) ->
  let s := store st in
  let sent := Message.mk (uuid s (minted s)) uid (trim content)
                         (server_now s) (Some rid) in
  thread (messages (hook (fetchMessages rid (sendMessage rid content st).2).2))
         rid
  = order_asc Message.created_at (thread_rows s rid) ++ [sent].
Proof.
  intros Huid Ht Hc Hf Hclock s sent.
  rewrite (sendMessage_accepted st rid content uid Huid Ht Hc).
  rewrite (failing_no_faults _ Hf).
  rewrite (failing_no_faults (set_minted _ _)) by (simpl; by rewrite Hf).
  unfold thread. rewrite fetchMessages_messages.
  rewrite (failing_no_faults) by (simpl; by rewrite Hf).
  rewrite lookup_insert_eq. simpl. unfold thread_rows at 1. simpl.
  rewrite (thread_rows_snoc (store st) rid) by done.
  apply (order_asc_snoc Message.created_at).
  intros y Hy. apply Z.lt_le_incl. by apply Hclock.
Qed.

(** X10.  A replay after a history load is harmless: the insert event of a
    message that the load already brought changes no thread. *)
Theorem replayed_event_after_load_changes_nothing st rid m :
  truthy rid = true -> failing (store st) = false ->
  m ∈ thread_rows (store st) rid ->
  let loaded := (fetchMessages rid st).2 in
  messages (hook (on_message_insert m loaded).2) = messages (hook loaded).
Proof.
  intros Ht Hf Hm loaded.
  assert (Message.barter_request_id m = Some rid) as Hrid
    by (by apply list_elem_of_filter in Hm as [? _]).
  rewrite (on_message_insert_messages loaded m rid Hrid Ht).
  unfold merge_message. fold (thread (messages (hook loaded)) rid).
  assert (thread (messages (hook loaded)) rid
          = order_asc Message.created_at (thread_rows (store st) rid)) as ->.
  { unfold loaded, thread.
    by rewrite fetchMessages_messages, Hf, lookup_insert_eq. }
  destruct (existsb _ _) eqn:Hex; [reflexivity|].
  apply existsb_copies in Hex. unfold copies in Hex.
  apply length_zero_iff_nil in Hex.
  assert (m ∈ filter (fun x => Message.id x = Message.id m)
                     (order_asc Message.created_at
                                (thread_rows (store st) rid))) as Hin.
  { apply list_elem_of_filter. split; [done|]. by rewrite order_asc_perm. }
  rewrite Hex in Hin. by apply elem_of_nil in Hin.
Qed.

(** X11.  A live merge never drops or reorders what a thread holds: every
    thread before the event is a prefix of the thread after it, longer by
    one message at most; and an event without a request id changes nothing
    at all (no merge, no derivation). *)
Theorem message_insert_keeps_history st m :
  let st' := (on_message_insert m st).2 in
  (forall rid,
     thread (messages (hook st)) rid `prefix_of` thread (messages (hook st')) rid
     /\ (length (thread (messages (hook st')) rid)
         <= S (length (thread (messages (hook st)) rid)))%nat) /\
  (truthy_opt (Message.barter_request_id m) = false -> st' = st).
Proof.
  intros st'. split; [|by intros H; unfold st';
                        rewrite on_message_insert_discards].
  intros rid. unfold st'.
  destruct (truthy_opt (Message.barter_request_id m)) eqn:Htr;
    [|rewrite on_message_insert_discards by done; split; [done|simpl; lia]].
  destruct (Message.barter_request_id m) as [rid0|] eqn:Hrid; [|done].
  simpl in Htr. rewrite (on_message_insert_messages st m rid0 Hrid Htr).
  destruct (decide (rid = rid0)) as [->|Hne].
  - rewrite merge_message_thread. destruct (existsb _ _).
    + split; [done|lia].
    + split; [by apply prefix_app_r|]. rewrite length_app. simpl. lia.
  - unfold merge_message. destruct (existsb _ _); [split; [done|lia]|].
    unfold thread. rewrite lookup_insert_ne by done. split; [done|lia].
Qed.

(** ** Sending and the derived list *)

Lemma conversation_of_preview uid s row c :
  conversation_of uid s row = Some c ->
  Conversation.id c = BarterRequest.id (RequestRow.request row) /\
  Conversation.lastMessage c
    = Message.content <$> last_message_of s (Conversation.id c) /\
  Conversation.lastMessageTime c
    = Message.created_at <$> last_message_of s (Conversation.id c).
Proof.
  unfold conversation_of.
  destruct (involved uid row); [|done].
  destruct (counterpart uid row) as [other|]; simpl; [|done].
  destruct (truthy other); [|done].
  destruct (profile_of s other) as [p|]; simpl; [|done].
  by intros [= <-].
Qed.

(** The state an accepted send leaves when no call fails. *)
Lemma sendMessage_no_faults st rid content uid :
  currentUserId (hook st) = Some uid -> truthy uid = true ->
  trim content <> [] -> faults (store st) = [] ->
  let s := store st in
  let sent := Message.mk (uuid s (minted s)) uid (trim content)
                         (server_now s) (Some rid) in
  let st' := (sendMessage rid content st).2 in
  hook st' = hook st /\
  faults (store st') = [] /\
  skills (store st') = skills s /\
  profiles_public (store st') = profiles_public s /\
  messages_table (store st') = messages_table s ++ [sent] /\
  barter_requests (store st')
  = map (fun r => if str_eq (BarterRequest.id r) rid
                  then BarterRequest.touch (client_now st) r else r)
        (barter_requests s).
Proof.
  intros Huid Ht Hc Hf s sent st'. unfold st'.
  rewrite (sendMessage_accepted st rid content uid Huid Ht Hc).
  rewrite (failing_no_faults _ Hf).
  rewrite (failing_no_faults (set_minted _ _)) by (simpl; by rewrite Hf).
  simpl. by rewrite Hf.
Qed.

(** X12.  After a send that goes through, the derived list shows the message
    just sent as the preview of its conversation: its trimmed content and
    the store's timestamp (the store's clock being ahead of the messages
    the thread already has, and no call failing). *)
Theorem sent_message_becomes_preview st rid content uid :
  currentUserId (hook st) = Some uid -> truthy uid = true ->
  trim content <> [] -> faults (store st) = [] ->
  (forall m, m ∈ thread_rows (store st) rid ->
             Message.created_at m < server_now (store st)) ->
  let st' := (fetchConversations (sendMessage rid content st).2).2 in
  forall c, c ∈ conversations (hook st') -> Conversation.id c = rid ->
    Conversation.lastMessage c = Some (trim content) /\
    Conversation.lastMessageTime c = Some (server_now (store st)).
Proof.
  intros Huid Ht Hc Hf Hclock st' c Hin Hid.
  destruct (sendMessage_no_faults st rid content uid Huid Ht Hc Hf)
    as (Hh & Hf' & _ & _ & Hm & _).
  unfold st' in Hin.
  rewrite (fetchConversations_derives _ uid) in Hin
    by (rewrite ?Hh; done).
  apply list_elem_of_omap in Hin as (row & _ & Hrow).
  apply conversation_of_preview in Hrow as (_ & -> & ->).
  rewrite Hid. unfold last_message_of, thread_rows. rewrite Hm.
  rewrite thread_rows_snoc by done.
  rewrite (order_desc_snoc Message.created_at) by done.
  done.
Qed.

(** X13.  And it moves the conversation to the top of the list: when the
    update goes through too and the client's clock is ahead of every
    request's [updated_at], the conversation of the request written to comes
    first in the derived list (request ids being unique, and the request
    being one whose lookups succeed). *)
Theorem sent_message_moves_conversation_to_top st rid content uid r :
  currentUserId (hook st) = Some uid -> truthy uid = true ->
  trim content <> [] -> faults (store st) = [] ->
  r ∈ barter_requests (store st) -> BarterRequest.id r = rid ->
  NoDup (BarterRequest.id <$> barter_requests (store st)) ->
  (forall r', r' ∈ barter_requests (store st) ->
              BarterRequest.updated_at r' < client_now st) ->
  resolves uid (store st) (join_skill (store st) r) = true ->
  let st' := (fetchConversations (sendMessage rid content st).2).2 in
  exists c rest, conversations (hook st') = c :: rest /\
                 Conversation.id c = rid.
Proof.
  intros Huid Ht Hc Hf Hr Hrid Hnd Hclock Hres st'.
  destruct (sendMessage_no_faults st rid content uid Huid Ht Hc Hf)
    as (Hh & Hf' & Hsk & Hpr & _ & Hbr).
  unfold st'.
  rewrite (fetchConversations_derives _ uid) by (rewrite ?Hh; done).
  set (s3 := store (sendMessage rid content st).2) in *.
  set (top := join_skill s3 (BarterRequest.touch (client_now st) r)).
  assert (head (request_rows s3) = Some top) as Hhead.
  { unfold request_rows. apply head_order_desc.
    - apply list_elem_of_fmap. eexists. split; [reflexivity|].
      rewrite Hbr. apply list_elem_of_fmap. exists r. split; [|done].
      unfold str_eq. by rewrite bool_decide_eq_true_2.
    - intros row (r1 & -> & Hr1)%list_elem_of_fmap.
      rewrite Hbr in Hr1. apply list_elem_of_fmap in Hr1 as (r0 & -> & Hr0).
      unfold str_eq. destruct (decide (BarterRequest.id r0 = rid)) as [Heq|Hne].
      + rewrite bool_decide_eq_true_2 by done. left.
        by rewrite (fmap_NoDup_inj BarterRequest.id _ r0 r Hnd Hr0 Hr)
          by congruence.
      + rewrite bool_decide_eq_false_2 by done. right. simpl.
        by apply Hclock. }
  destruct (request_rows s3) as [|row rows]; [done|].
  simpl in Hhead. injection Hhead as ->.
  assert (resolves uid s3 top = true) as Hres3.
  { revert Hres. unfold resolves, involved, counterpart, requester_of,
      owner_of, profile_of, top, join_skill. simpl. by rewrite Hsk, Hpr. }
  pose proof (conversation_of_resolves uid s3 top) as Hconv.
  simpl. destruct (conversation_of uid s3 top) as [c|]; [|congruence].
  destruct Hconv as [_ Hid]. exists c. eexists. split; [reflexivity|].
  rewrite Hid. simpl. exact Hrid.
Qed.

(** ** Trimming *)

Lemma trimStart_cases s :
  trimStart s = [] \/
  exists c r, trimStart s = c :: r /\ is_js_whitespace c = false.
Proof.
  induction s as [|c s IH]; [by left|]. simpl.
  destruct (is_js_whitespace c) eqn:Hc; [exact IH|]. right. by exists c, s.
Qed.

Lemma trimStart_idempotent s : trimStart (trimStart s) = trimStart s.
Proof.
  destruct (trimStart_cases s) as [->|(c & r & -> & Hc)]; [done|].
  simpl. by rewrite Hc.
Qed.

Lemma trimStart_suffix s : exists ws, s = ws ++ trimStart s.
Proof.
  induction s as [|c s [ws IH]]; [by exists []|]. simpl.
  destruct (is_js_whitespace c); [|by exists []].
  exists (c :: ws). simpl. by rewrite <- IH.
Qed.

Lemma trimEnd_prefix s : exists ws, s = trimEnd s ++ ws.
Proof.
  unfold trimEnd. destruct (trimStart_suffix (rev s)) as [ws Hws].
  exists (rev ws). rewrite <- rev_app_distr, <- Hws. by rewrite rev_involutive.
Qed.

(** What [trim] returns neither starts nor ends with whitespace ... *)
Lemma trim_trimmed s : trimmed (trim s).
Proof.
  unfold trimmed, trim. split.
  - destruct (trimStart_cases s) as [->|(c & r & Hs & Hc)]; [done|].
    rewrite Hs. destruct (trimEnd_prefix (c :: r)) as [ws Hws].
    destruct (trimEnd (c :: r)) as [|d u]; [done|].
    simpl in Hws. injection Hws as <- _. simpl. by rewrite Hc.
  - unfold trimEnd. rewrite rev_involutive. apply trimStart_idempotent.
Qed.

(** ... and such text is what [trim] leaves alone. *)
Lemma trimmed_trim s : trimmed s -> trim s = s.
Proof.
  intros [Hstart Hend]. unfold trim, trimEnd.
  by rewrite Hstart, Hend, rev_involutive.
Qed.

Lemma trim_idempotent s : trim (trim s) = trim s.
Proof. apply trimmed_trim, trim_trimmed. Qed.

(** ** More on [handleSendMessage] *)

(** X14.  The draft is cleared only by a send that went through.  With a
    conversation selected and a user signed in: a blank draft changes
    nothing; a draft too long stays, with the too-long toast and the store
    untouched; when the insert fails the draft stays and the failure is
    toasted once and logged twice (by the hook, then by the page); when the
    insert goes through the draft is emptied and nothing is reported,
    whatever becomes of the timestamp update. *)
Theorem draft_cleared_only_when_sent st conv uid :
  selectedConversation (page st) = Some conv -> truthy conv = true ->
  currentUserId (hook st) = Some uid -> truthy uid = true ->
  let draft := message (page st) in
  let st' := (handleSendMessage st).2 in
  (trim draft = [] -> st' = st) /\
  (text_length (trim draft) > MAX_MESSAGE_LENGTH ->
     message (page st') = draft /\ store st' = store st /\
     toasts st' = toasts st ++ ["Message too long. Maximum 2000 characters."]) /\
  (trim draft <> [] -> text_length (trim draft) <= MAX_MESSAGE_LENGTH ->
     if failing (store st)
     then message (page st') = draft /\
          contents (store st') = contents (store st) /\
          toasts st' = toasts st ++ ["Failed to send message"] /\
          console st' = console st
            ++ [("Error sending message:", StoreUnreachable);
                ("Failed to send message:", StoreUnreachable)]
     else message (page st') = [] /\
          toasts st' = toasts st /\ console st' = console st /\
          selectedConversation (page st') = Some conv).
Proof.
  intros Hsel Hconv Huid Ht draft st'.
  unfold st', handleSendMessage. fold draft. rewrite Hsel, Hconv. simpl.
  split; [by intros ->|]. split.
  - intros Hlong. apply Z.gtb_gt in Hlong.
    destruct (truthy_text (trim draft)) eqn:Htr; simpl.
    + by rewrite Hlong.
    + apply truthy_text_false in Htr. rewrite Htr in Hlong. done.
  - intros Hne Hle.
    destruct (truthy_text (trim draft)) eqn:Htr; simpl;
      [|by apply truthy_text_false in Htr].
    destruct (text_length (trim draft) >? MAX_MESSAGE_LENGTH) eqn:Hlen;
      [apply Z.gtb_gt in Hlen; lia|].
    unfold bind.
    rewrite (sendMessage_accepted st conv draft uid Huid Ht Hne).
    destruct (failing (store st)); simpl.
    + repeat split; try done. by rewrite <- app_assoc.
    + destruct (failing _); simpl; by rewrite Hsel.
Qed.

(** The calls of a send, whatever the state. *)
Lemma sendMessage_calls st rid content :
  exists extra,
    trace (store (sendMessage rid content st).2) = trace (store st) ++ extra /\
    forall c, c ∈ extra ->
      c = UpdateBarterRequest rid (client_now st) \/
      exists uid, currentUserId (hook st) = Some uid /\
                  trim content <> [] /\
                  c = InsertMessage rid uid (trim content).
Proof.
  destruct (currentUserId (hook st)) as [uid|] eqn:Huid;
    [|exists []; unfold sendMessage; rewrite Huid, app_nil_r;
      split; [done|by intros c ?%elem_of_nil]].
  destruct (truthy uid) eqn:Ht;
    [|exists []; unfold sendMessage; rewrite Huid, Ht, app_nil_r;
      split; [done|by intros c ?%elem_of_nil]].
  destruct (decide (trim content = [])) as [Hempty|Hne];
    [exists []; unfold sendMessage; rewrite Huid, Ht, Hempty, app_nil_r;
     split; [done|by intros c ?%elem_of_nil]|].
  rewrite (sendMessage_accepted st rid content uid Huid Ht Hne).
  destruct (failing (store st)); simpl.
  - exists [InsertMessage rid uid (trim content)]. split; [done|].
    intros c ->%list_elem_of_singleton. right. by exists uid.
  - exists [InsertMessage rid uid (trim content);
            UpdateBarterRequest rid (client_now st)].
    split; [destruct (failing _); simpl; by rewrite <- app_assoc|].
    intros c [->|[->|[]%elem_of_nil]%elem_of_cons]%elem_of_cons;
      [right; by exists uid|by left].
Qed.

(** X15.  Whatever the state, a message that the chat page hands to the store
    is clean: it goes to the selected conversation in the name of the
    signed-in user, and its content is the trimmed draft, which is not
    empty, has at most 2000 code units and neither starts nor ends with
    whitespace. *)
Theorem handleSendMessage_inserts_clean_content st :
  exists extra,
    trace (store (handleSendMessage st).2) = trace (store st) ++ extra /\
    forall rid sender content, InsertMessage rid sender content ∈ extra ->
      selectedConversation (page st) = Some rid /\
      currentUserId (hook st) = Some sender /\
      content = trim (message (page st)) /\
      content <> [] /\
      text_length content <= MAX_MESSAGE_LENGTH /\
      trimmed content.
Proof.
  assert (forall s : State, exists extra : list StoreCall,
            trace (store s) = trace (store s) ++ extra /\
            forall rid sender content,
              InsertMessage rid sender content ∈ extra -> False) as Hnone
    by (intros s; exists []; rewrite app_nil_r;
        split; [done|by intros ??? ?%elem_of_nil]).
  unfold handleSendMessage.
  destruct (selectedConversation (page st)) as [conv|] eqn:Hsel;
    [|destruct (Hnone st) as (e & He & Hn); exists e; split; [done|];
      intros ??? []%Hn].
  destruct (negb (truthy conv) || negb (truthy_text (trim (message (page st)))));
    [destruct (Hnone st) as (e & He & Hn); exists e; split; [done|];
     intros ??? []%Hn|].
  destruct (text_length (trim (message (page st))) >? MAX_MESSAGE_LENGTH)
    eqn:Hlen;
    [destruct (Hnone st) as (e & He & Hn); exists e; split; [done|];
     intros ??? []%Hn|].
  rewrite Z.gtb_ltb in Hlen. apply Z.ltb_ge in Hlen.
  unfold bind.
  destruct (sendMessage_calls st conv (message (page st)))
    as (extra & Htrace & Hcalls).
  destruct (sendMessage conv (message (page st)) st) as [r st1].
  exists extra. split; [by destruct r|].
  intros rid sender content Hin.
  destruct (Hcalls _ Hin) as [|(uid & Huid & Hne & [= -> -> ->])]; [done|].
  repeat split; try done. all: apply trim_trimmed.
Qed.

(** ** The chat page *)

(** X16.  Opening the chat page.  With a list derived and a conversation
    already selected the auto-select effect does nothing.  With none
    selected it selects the first conversation of the list, the most
    recently active one; the page then finds that conversation for its
    header, and the load that the selection triggers shows the stored
    messages of its thread, oldest first. *)
Theorem opening_chat_selects_first_conversation st c rest :
  conversations (hook st) = c :: rest ->
  (truthy_opt (selectedConversation (page st)) = true ->
   autoSelect st = (tt, st)) /\
  (truthy_opt (selectedConversation (page st)) = false ->
   truthy (Conversation.id c) = true -> failing (store st) = false ->
   let st' := (fetchSelected (autoSelect st).2).2 in
   selectedConversation (page st') = Some (Conversation.id c) /\
   selectedConv st' = Some c /\
   currentMessages st'
   = order_asc Message.created_at
               (thread_rows (store st) (Conversation.id c))).
Proof.
  intros Hconvs. unfold autoSelect. rewrite Hconvs. split.
  - by intros ->.
  - intros -> Hid Hf. simpl.
    unfold fetchSelected, selectedConv, currentMessages. simpl.
    rewrite Hid.
    unfold fetchMessages, bind, call, select_messages, rpc. simpl.
    rewrite Hf. simpl. rewrite Hid, Hconvs. simpl.
    unfold str_eq. rewrite bool_decide_eq_true_2 by done.
    by rewrite lookup_insert_eq.
Qed.

(** ** The tags of the skill form *)

Lemma filter_ne_absent (t : text) (l : list text) :
  t ∉ l -> filter (fun x => x <> t) l = l.
Proof.
  induction l as [|x l IH]; [done|]. intros Hnot.
  apply not_elem_of_cons in Hnot as [Hne Hnot].
  rewrite filter_cons, decide_True by done. by rewrite IH.
Qed.

Lemma with_tags_same f : SkillForm.with_tags (SkillForm.tags f) f = f.
Proof. by destruct f. Qed.

Lemma addTag_cases d :
  let tag := trim (tagInput d) in
  let tags := SkillForm.tags (formData d) in
  ((tag = [] \/ (tag ∈ tags)) /\ addTag d = d) \/
  (tag <> [] /\ (tag ∉ tags) /\
   addTag d = mkSkillDialog (SkillForm.with_tags (tags ++ [tag]) (formData d)) []).
Proof.
  intros tag tags. unfold addTag, includes. fold tag. fold tags.
  destruct (truthy_text tag) eqn:Htag; simpl.
  - destruct (decide (tag ∈ tags)) as [Hin|Hnot].
    + rewrite bool_decide_eq_true_2 by done. left. split; [by right|done].
    + rewrite bool_decide_eq_false_2 by done. right.
      split; [by destruct tag|done].
  - apply truthy_text_false in Htag. left. split; [by left|done].
Qed.

(** X17.  [addTag] takes the trimmed input once.  A blank input, or one that
    trims to a tag the form already has, changes nothing at all (the input
    stays as typed); otherwise the trimmed input becomes the last tag, the
    input is emptied, and the other fields of the form stay as they are. *)
Theorem addTag_adds_trimmed_input_once d :
  let tag := trim (tagInput d) in
  let tags := SkillForm.tags (formData d) in
  (addTag d = d <-> tag = [] \/ tag ∈ tags) /\
  (tag <> [] -> tag ∉ tags ->
   SkillForm.tags (formData (addTag d)) = tags ++ [tag] /\
   tagInput (addTag d) = [] /\
   SkillForm.with_tags tags (formData (addTag d)) = formData d /\
   addTag (addTag d) = addTag d).
Proof.
  intros tag tags.
  destruct (addTag_cases d) as [[Hskip Heq]|(Hne & Hnot & Heq)];
    fold tag tags in Heq |- *.
  - split; [by split|]. intros Hne Hnot. by destruct Hskip.
  - split.
    + split; [|intros [|]; done].
      intros Hsame. rewrite Heq in Hsame.
      apply (f_equal (fun x => length (SkillForm.tags (formData x)))) in Hsame.
      simpl in Hsame. fold tags in Hsame. rewrite length_app in Hsame.
      simpl in Hsame. lia.
    + intros _ _. rewrite Heq. simpl.
      split; [done|]. split; [done|]. split; [by destruct (formData d)|].
      by unfold addTag.
Qed.

(** X18.  The tags stay clean: starting from a list with no tag twice, none
    empty and none with whitespace around it, [addTag] and [removeTag]
    give such a list again. *)
Theorem tags_stay_clean d tag :
  clean_tags (SkillForm.tags (formData d)) ->
  clean_tags (SkillForm.tags (formData (addTag d))) /\
  clean_tags (SkillForm.tags (formData (removeTag tag d))).
Proof.
  intros [Hnd Hall]. split.
  - destruct (addTag_cases d) as [[_ ->]|(Hne & Hnot & ->)]; [by split|].
    simpl. split.
    + apply NoDup_app. split; [done|]. split; [|apply NoDup_singleton].
      by intros x Hx ->%list_elem_of_singleton.
    + apply Forall_app. split; [done|].
      apply Forall_singleton. split; [done|apply trim_trimmed].
  - simpl. split.
    + by apply NoDup_filter.
    + apply Forall_forall. intros x [_ Hx]%list_elem_of_filter.
      by apply (proj1 (Forall_forall _ _) Hall).
Qed.

(** X19.  [removeTag] takes the tag out wherever it stands and leaves the
    other tags in order; taking out a tag the form does not have changes
    nothing, and taking out the tag that [addTag] just added gives the form
    back. *)
Theorem removeTag_undoes_addTag d tag :
  (tag ∉ SkillForm.tags (formData (removeTag tag d))) /\
  (forall t, t <> tag ->
     (t ∈ SkillForm.tags (formData (removeTag tag d))
      <-> t ∈ SkillForm.tags (formData d))) /\
  (tag ∉ SkillForm.tags (formData d) -> removeTag tag d = d) /\
  (trim (tagInput d) ∉ SkillForm.tags (formData d) ->
   formData (removeTag (trim (tagInput d)) (addTag d)) = formData d).
Proof.
  split; [|split; [|split]].
  - simpl. intros [Hne _]%list_elem_of_filter. done.
  - intros t Hne. simpl. rewrite list_elem_of_filter. tauto.
  - intros Hnot. unfold removeTag. rewrite filter_ne_absent by done.
    rewrite with_tags_same. by destruct d.
  - intros Hnot.
    destruct (addTag_cases d) as [[_ ->]|(Hne & _ & ->)].
    + unfold removeTag. simpl. rewrite filter_ne_absent by done.
      apply with_tags_same.
    + simpl. rewrite filter_app, filter_ne_absent by done.
      rewrite filter_cons, decide_False by (by intros H; apply H).
      rewrite filter_nil, app_nil_r. by destruct (formData d).
Qed.

(** ** Proposing a swap *)

(** X20.  A proposal is turned away before the store hears of it when no
    skill is selected, when the trimmed note is longer than 2000 code
    units, or (checked last) when nobody is signed in: one error toast, no
    payload, no success toast, no navigation, and the dialog stays open. *)
Theorem proposal_rejected_before_any_call user d :
  truthy (selectedSkillId d) = false \/
  text_length (trim (swap_message d)) > MAX_MESSAGE_LENGTH \/
  user = None ->
  let d' := handleProposeSwap user d in
  store (app d') = store (app d) /\
  submitted d' = submitted d /\
  successes d' = successes d /\
  navigations d' = navigations d /\
  open_changes d' = open_changes d /\
  toasts (app d')
  = toasts (app d)
    ++ [if negb (truthy (selectedSkillId d))
        then "Please select a skill to offer"
        else if text_length (trim (swap_message d)) >? MAX_MESSAGE_LENGTH
             then "Message too long. Maximum 2000 characters."
             else "Please sign in to propose a swap"].
Proof.
  intros Hwhy d'. unfold d', handleProposeSwap.
  destruct (truthy (selectedSkillId d)) eqn:Hsel; simpl; [|done].
  destruct (text_length (trim (swap_message d)) >? MAX_MESSAGE_LENGTH)
    eqn:Hlen; simpl; [done|].
  destruct Hwhy as [|[Hlong| ->]]; [done| |done].
  apply Z.gtb_gt in Hlong. congruence.
Qed.

(** X21.  A valid proposal by a signed-in user makes the request insert with
    the payload (requester, requested skill, selected skill, the trimmed
    note or [null], status pending).  When that insert fails nothing is
    stored, the failure is toasted and the dialog stays open.  When it goes
    through, the request row is appended and the proposal counts as sent
    (success toast, navigation to the chat, dialog closed) whatever becomes
    of the note: a blank note is not sent at all, a note whose insert
    fails is only logged, and otherwise the trimmed note is the first
    message of the new request's thread. *)
Theorem proposal_sent_whatever_becomes_of_note uid d :
  truthy (selectedSkillId d) = true ->
  text_length (trim (swap_message d)) <= MAX_MESSAGE_LENGTH ->
  let s := store (app d) in
  let d' := handleProposeSwap (Some uid) d in
  let request :=
    BarterRequest.mk (uuid s (minted s)) uid (requestedSkillId d)
                     (selectedSkillId d) "pending" (server_now s) in
  let note :=
    Message.mk (uuid s (S (minted s))) uid (trim (swap_message d))
               (server_now s) (Some (BarterRequest.id request)) in
  let insert :=
    InsertBarterRequest uid (requestedSkillId d) (selectedSkillId d)
                        "pending" in
  submitted d' = submitted d ++ [swap_payload uid d] /\
  swap_loading d' = false /\
  if failing s
  then contents (store (app d')) = contents s /\
       toasts (app d') = toasts (app d) ++ ["Failed to send swap proposal"] /\
       successes d' = successes d /\ navigations d' = navigations d /\
       open_changes d' = open_changes d
  else barter_requests (store (app d')) = barter_requests s ++ [request] /\
       successes d' = successes d ++ ["Swap proposal sent! Opening chat..."] /\
       navigations d' = navigations d ++ ["/chat"] /\
       open_changes d' = open_changes d ++ [false] /\
       toasts (app d') = toasts (app d) /\
       messages_table (store (app d'))
       = if truthy_text (trim (swap_message d)) && negb (failing (served insert s))
         then messages_table s ++ [note] else messages_table s.
Proof.
  intros Hsel Hlen s d' request note insert.
  unfold d', handleProposeSwap. rewrite Hsel. simpl.
  destruct (text_length (trim (swap_message d)) >? MAX_MESSAGE_LENGTH)
    eqn:Hgt; [apply Z.gtb_gt in Hgt; lia|].
  unfold in_app, call, insert_barter_request, rpc. simpl. fold s.
  destruct (failing s); simpl; [done|].
  destruct (truthy_text (trim (swap_message d))); simpl; [|done].
  unfold insert_message, rpc. simpl. fold s.
  change (failing (set_minted _ _)) with (failing (served insert s)).
  by destruct (failing (served insert s)).
Qed.

Lemma thread_rows_fresh s rid :
  (forall m, m ∈ messages_table s -> Message.barter_request_id m <> Some rid) ->
  thread_rows s rid = [].
Proof.
  unfold thread_rows. induction (messages_table s) as [|m l IH]; [done|].
  intros Hfresh. rewrite filter_cons, decide_False
    by (apply Hfresh, elem_of_cons; by left).
  apply IH. intros x Hx. apply Hfresh, elem_of_cons. by right.
Qed.

(** The store a proposal with a note leaves when no call fails. *)
Lemma proposal_store uid d :
  truthy (selectedSkillId d) = true ->
  text_length (trim (swap_message d)) <= MAX_MESSAGE_LENGTH ->
  trim (swap_message d) <> [] ->
  faults (store (app d)) = [] ->
  let s := store (app d) in
  let s' := store (app (handleProposeSwap (Some uid) d)) in
  let request :=
    BarterRequest.mk (uuid s (minted s)) uid (requestedSkillId d)
                     (selectedSkillId d) "pending" (server_now s) in
  let note :=
    Message.mk (uuid s (S (minted s))) uid (trim (swap_message d))
               (server_now s) (Some (BarterRequest.id request)) in
  faults s' = [] /\ skills s' = skills s /\
  profiles_public s' = profiles_public s /\
  barter_requests s' = barter_requests s ++ [request] /\
  messages_table s' = messages_table s ++ [note].
Proof.
  intros Hsel Hlen Hnote Hf s s' request note.
  unfold s', handleProposeSwap. rewrite Hsel. simpl.
  destruct (text_length (trim (swap_message d)) >? MAX_MESSAGE_LENGTH)
    eqn:Hgt; [apply Z.gtb_gt in Hgt; lia|].
  unfold in_app, call, insert_barter_request, rpc. simpl.
  rewrite (failing_no_faults _ Hf). simpl.
  destruct (truthy_text (trim (swap_message d))) eqn:Htr;
    [|by apply truthy_text_false in Htr].
  unfold insert_message, rpc. simpl.
  rewrite (failing_no_faults (set_minted _ _)) by (simpl; by rewrite Hf).
  simpl. by rewrite Hf.
Qed.

(** The requests a proposal leaves when no call fails, with a note or
    without one. *)
Lemma proposal_request_stored uid d :
  truthy (selectedSkillId d) = true ->
  text_length (trim (swap_message d)) <= MAX_MESSAGE_LENGTH ->
  faults (store (app d)) = [] ->
  let s := store (app d) in
  let s' := store (app (handleProposeSwap (Some uid) d)) in
  let request :=
    BarterRequest.mk (uuid s (minted s)) uid (requestedSkillId d)
                     (selectedSkillId d) "pending" (server_now s) in
  faults s' = [] /\ barter_requests s' = barter_requests s ++ [request].
Proof.
  intros Hsel Hlen Hf s s' request.
  unfold s', handleProposeSwap. rewrite Hsel. simpl.
  destruct (text_length (trim (swap_message d)) >? MAX_MESSAGE_LENGTH)
    eqn:Hgt; [apply Z.gtb_gt in Hgt; lia|].
  unfold in_app, call, insert_barter_request, rpc. simpl.
  rewrite (failing_no_faults _ Hf). simpl.
  destruct (truthy_text (trim (swap_message d))) eqn:Htr.
  - unfold insert_message, rpc. simpl.
    rewrite (failing_no_faults (set_minted _ _)) by (simpl; by rewrite Hf).
    simpl. by rewrite Hf.
  - simpl. by rewrite Hf.
Qed.

(** X22.  A proposal reaches the owner of the requested skill.  After a
    proposal with a note (no call failing, the new id not in use by stored
    messages), the owner's derived list has a conversation for the new
    request, with the proposer as participant and the trimmed note as
    preview. *)
Theorem proposal_reaches_skill_owner uid d st owner p :
  truthy (selectedSkillId d) = true ->
  text_length (trim (swap_message d)) <= MAX_MESSAGE_LENGTH ->
  trim (swap_message d) <> [] ->
  faults (store (app d)) = [] ->
  let s := store (app d) in
  truthy uid = true -> profile_of s uid = Some p ->
  Skill.user_id
    <$> find (fun k => str_eq (Skill.id k) (requestedSkillId d)) (skills s)
    = Some owner ->
  truthy owner = true ->
  (forall m, m ∈ messages_table s ->
             Message.barter_request_id m <> Some (uuid s (minted s))) ->
  currentUserId (hook st) = Some owner ->
  let d' := handleProposeSwap (Some uid) d in
  let st' := (fetchConversations (with_store (store (app d')) st)).2 in
  exists c, c ∈ conversations (hook st') /\
            Conversation.id c = uuid s (minted s) /\
            Conversation.participant_id c = uid /\
            Conversation.lastMessage c = Some (trim (swap_message d)).
Proof.
  intros Hsel Hlen Hnote Hf s Htu Hp Hown Hto Hfresh Huid d' st'.
  destruct (proposal_store uid d Hsel Hlen Hnote Hf)
    as (Hf' & Hsk & Hpr & Hbr & Hm).
  fold s d' in Hf', Hsk, Hpr, Hbr, Hm.
  unfold st'.
  rewrite (fetchConversations_derives _ owner) by done.
  simpl. set (s' := store (app d')) in *.
  set (request := BarterRequest.mk (uuid s (minted s)) uid (requestedSkillId d)
                    (selectedSkillId d) "pending" (server_now s)) in *.
  assert (join_skill s' request ∈ request_rows s') as Hin.
  { apply elem_of_request_rows. exists request. split; [|done].
    rewrite Hbr. apply elem_of_app. right. apply elem_of_cons. by left. }
  pose proof (profile_of_id _ _ _ Hp) as Hpid.
  assert (last_message_of s' (uuid s (minted s))
          = Some (Message.mk (uuid s (S (minted s))) uid
                    (trim (swap_message d)) (server_now s)
                    (Some (uuid s (minted s))))) as Hlast.
  { unfold last_message_of, thread_rows. rewrite Hm.
    rewrite thread_rows_snoc by done.
    by rewrite (thread_rows_fresh s _ Hfresh). }
  assert (profile_of s' uid = Some p) as Hp'
    by (unfold profile_of; by rewrite Hpr).
  eexists. split.
  - apply list_elem_of_omap. exists (join_skill s' request).
    split; [exact Hin|].
    unfold conversation_of, involved, counterpart, requester_of, owner_of.
    unfold join_skill. simpl. rewrite Hsk, Hown. simpl.
    unfold str_eq at 2. rewrite bool_decide_eq_true_2 by done.
    rewrite orb_true_r. unfold str_eq.
    destruct (decide (uid = owner)) as [<-|Hne].
    + rewrite bool_decide_eq_true_2 by done. simpl.
      rewrite Htu, Hp'. simpl. rewrite Hlast. reflexivity.
    + rewrite bool_decide_eq_false_2 by done. simpl.
      rewrite Htu, Hp'. simpl. rewrite Hlast. reflexivity.
  - simpl. by rewrite Hpid.
Qed.

(** X23.  The bootstrap finds a proposed swap.  After a first proposal,
    with a note or without one (the user having been the requester of
    nothing, no call failing), asking the hook for a conversation with
    another user answers with the proposal's request and inserts nothing. *)
Theorem bootstrap_finds_proposed_swap uid d st other skill :
  truthy (selectedSkillId d) = true ->
  text_length (trim (swap_message d)) <= MAX_MESSAGE_LENGTH ->
  faults (store (app d)) = [] ->
  let s := store (app d) in
  filter (fun r => BarterRequest.requester_id r = uid) (barter_requests s)
    = [] ->
  truthy uid = true -> uid <> other ->
  currentUserId (hook st) = Some uid ->
  let s' := store (app (handleProposeSwap (Some uid) d)) in
  let result := getOrCreateConversation other skill (with_store s' st) in
  result.1 = Some (uuid s (minted s)) /\
  contents (store result.2) = contents s'.
Proof.
  intros Hsel Hlen Hf s Hnone Htu Hne Huid s' result.
  destruct (proposal_request_stored uid d Hsel Hlen Hf) as (Hf' & Hbr).
  fold s s' in Hf', Hbr.
  unfold result.
  rewrite (getOrCreateConversation_run _ uid other skill) by done.
  unfold existing_request, select_request_of, rpc. simpl.
  rewrite (failing_no_faults _ Hf'). simpl.
  rewrite Hbr, filter_app, Hnone, filter_cons, filter_nil.
  rewrite decide_True by done. simpl. split; [reflexivity|].
  fetch_frame Hframe. by destruct Hframe as [-> _].
Qed.

(** ** More scenarios *)

(** Alice's list follows the order of the fetch. *)
Lemma conversations_most_recent_first_witness :
  exists rows,
    rows `sublist_of` request_rows demo_store /\
    Forall2 (derived_from "alice" demo_store)
      (conversations (hook (fetchConversations (demo_state "alice" [])).2))
      rows /\
    descending activity rows = true.
Proof.
  apply (conversations_most_recent_first (demo_state "alice" []) "alice");
    reflexivity.
Defined.

(** No request of the demo store is listed twice for Alice. *)
Lemma conversations_unique_and_named_witness :
  NoDup (Conversation.id
           <$> conversations (hook (fetchConversations (demo_state "alice" [])).2)).
Proof.
  destruct (conversations_unique_and_named (demo_state "alice" []) "alice")
    as [Hnd _]; try reflexivity.
  apply Hnd. apply (bool_decide_unpack _). by vm_compute.
Defined.

Lemma signed_out_operations_do_nothing_witness :
  fetchConversations signed_out_state = (tt, signed_out_state) /\
  (forall rid content,
     sendMessage rid content signed_out_state = (Returned tt, signed_out_state)) /\
  (forall other skill,
     getOrCreateConversation other skill signed_out_state
     = (None, signed_out_state)).
Proof. apply (signed_out_operations_do_nothing signed_out_state). reflexivity. Defined.

(** Bob asks for a conversation with Bob. *)
Lemma getOrCreate_null_answers_witness :
  getOrCreateConversation "bob" (Some "s1") (demo_state "bob" [])
  = (None, demo_state "bob" []).
Proof.
  destruct (getOrCreate_null_answers (demo_state "bob" []) "bob") as [Hself _];
    [reflexivity|]. apply Hself.
Defined.

(** Bob asks for Alice offering s1, then for Carol offering nothing. *)
Lemma getOrCreate_twice_creates_once_witness :
  let first := getOrCreateConversation "alice" (Some "s1") (demo_state "bob" []) in
  let second := getOrCreateConversation "carol" None first.2 in
  second.1 = first.1 /\
  barter_requests (store second.2) = barter_requests (store first.2).
Proof.
  destruct (getOrCreate_twice_creates_once (demo_state "bob" []) "bob"
              "alice" "carol" "s1" None) as (_ & Hsame & _ & Hrows);
    try reflexivity; try discriminate.
  by split.
Defined.

(** Bob asks for Alice offering his own s1: the conversation is with Bob. *)
Lemma created_conversation_is_with_skill_owner_witness :
  let result :=
    getOrCreateConversation "alice" (Some "s1") (demo_state "bob" []) in
  exists c, c ∈ conversations (hook result.2) /\
            Some (Conversation.id c) = result.1 /\
            Conversation.participant_id c = "bob".
Proof.
  apply (created_conversation_is_with_skill_owner (demo_state "bob" []) "bob"
           "alice" "s1" "bob" (Profile.mk "bob" (Some "Bob") None));
    try reflexivity; discriminate.
Defined.

Lemma first_message_only (P : Message.t -> Prop) :
  P first_message ->
  forall m, m ∈ thread_rows demo_store "r1" -> P m.
Proof.
  intros HP m Hm. change (thread_rows demo_store "r1") with [first_message] in Hm.
  by apply list_elem_of_singleton in Hm as ->.
Qed.

(** Alice sends "hello" in r1 and loads the thread. *)
Lemma sent_message_closes_loaded_thread_witness :
  Message.content
    <$> thread (messages (hook (fetchMessages "r1"
                  (sendMessage "r1" (text_of " hello ")
                               (demo_state "alice" [])).2).2)) "r1"
  = [text_of "hi"; text_of "hello"].
Proof.
  rewrite (sent_message_closes_loaded_thread (demo_state "alice" []) "r1"
             (text_of " hello ") "alice"); try reflexivity.
  - vm_compute. discriminate.
  - apply first_message_only. vm_compute. reflexivity.
Defined.

Lemma replayed_event_after_load_changes_nothing_witness :
  let loaded := (fetchMessages "r1" (demo_state "alice" [])).2 in
  messages (hook (on_message_insert first_message loaded).2)
  = messages (hook loaded).
Proof.
  apply (replayed_event_after_load_changes_nothing (demo_state "alice" [])
           "r1" first_message); try reflexivity.
  apply elem_of_cons. by left.
Defined.

(** Alice sends "hello" in r1 and derives her list. *)
Lemma sent_message_becomes_preview_witness :
  let st' := (fetchConversations
                (sendMessage "r1" (text_of " hello ")
                             (demo_state "alice" [])).2).2 in
  Forall (fun c => Conversation.id c = "r1" ->
                   Conversation.lastMessage c = Some (text_of "hello") /\
                   Conversation.lastMessageTime c = Some 100)
         (conversations (hook st')).
Proof.
  apply Forall_forall. intros c Hc Hid.
  apply (sent_message_becomes_preview (demo_state "alice" []) "r1"
           (text_of " hello ") "alice"); try done.
  apply first_message_only. reflexivity.
Defined.

Lemma sent_message_moves_conversation_to_top_witness :
  let st' := (fetchConversations
                (sendMessage "r1" (text_of " hello ")
                             (demo_state "alice" [])).2).2 in
  exists c rest, conversations (hook st') = c :: rest /\
                 Conversation.id c = "r1".
Proof.
  apply (sent_message_moves_conversation_to_top (demo_state "alice" []) "r1"
           (text_of " hello ") "alice" first_request); try reflexivity.
  - vm_compute. discriminate.
  - apply elem_of_cons. by left.
  - apply (bool_decide_unpack _). by vm_compute.
  - intros r' Hr'. simpl in Hr'.
    repeat (apply elem_of_cons in Hr' as [->|Hr']; [reflexivity|]).
    by apply elem_of_nil in Hr'.
Defined.

Lemma draft_cleared_only_when_sent_witness :
  message (page (handleSendMessage
                   (demo_state "alice" (text_of " hello "))).2) = [].
Proof.
  destruct (draft_cleared_only_when_sent
              (demo_state "alice" (text_of " hello ")) "r1" "alice"
              eq_refl eq_refl eq_refl eq_refl) as (_ & _ & Hsent).
  assert (trim (text_of " hello ") <> []) as Hne by (vm_compute; discriminate).
  assert (text_length (trim (text_of " hello ")) <= MAX_MESSAGE_LENGTH) as Hle
    by (vm_compute; discriminate).
  specialize (Hsent Hne Hle). simpl in Hsent. exact (proj1 Hsent).
Defined.

(** Alice arrives, her list is derived, and r2 comes up. *)
Lemma opening_chat_selects_first_conversation_witness :
  let st := (fetchConversations arriving_state).2 in
  let st' := (fetchSelected (autoSelect st).2).2 in
  selectedConversation (page st') = Some "r2" /\
  Conversation.participant_id <$> selectedConv st' = Some "carol" /\
  currentMessages st' = [].
Proof.
  destruct (opening_chat_selects_first_conversation
              (fetchConversations arriving_state).2
              (Conversation.mk "r2" "carol" "Unknown User" "" None None
                               (Some "r2"))
              [Conversation.mk "r1" "bob" "Bob" "" (Some (text_of "hi"))
                               (Some 5) (Some "r1")])
    as [_ Hopen]; [by vm_compute|].
  destruct Hopen as (Hsel & Hconv & Hmsgs); try reflexivity.
  split; [exact Hsel|]. split; [by rewrite Hconv|]. by rewrite Hmsgs.
Defined.

Lemma tags_stay_clean_witness :
  clean_tags (SkillForm.tags (formData (addTag demo_tags))) /\
  clean_tags (SkillForm.tags (formData (removeTag (text_of "music") demo_tags))).
Proof.
  apply (tags_stay_clean demo_tags (text_of "music")). split.
  - apply NoDup_singleton.
  - apply Forall_singleton. split; [discriminate|]. by split.
Defined.

(** No skill selected. *)
Lemma proposal_rejected_before_any_call_witness :
  let d := demo_dialog "" (text_of "hi there") [] in
  let d' := handleProposeSwap (Some "bob") d in
  store (app d') = store (app d) /\
  toasts (app d') = ["Please select a skill to offer"].
Proof.
  destruct (proposal_rejected_before_any_call (Some "bob")
              (demo_dialog "" (text_of "hi there") []))
    as (Hstore & _ & _ & _ & _ & Htoast); [by left|].
  by split.
Defined.

(** Bob proposes s1 for Alice's s2; the note's insert fails. *)
Lemma proposal_sent_whatever_becomes_of_note_witness :
  let d := demo_dialog "s1" (text_of "hi there") [false; true] in
  let d' := handleProposeSwap (Some "bob") d in
  submitted d' = [swap_payload "bob" d] /\ swap_loading d' = false.
Proof.
  destruct (proposal_sent_whatever_becomes_of_note "bob"
              (demo_dialog "s1" (text_of "hi there") [false; true]))
    as (Hsub & Hload & _); [reflexivity|vm_compute; discriminate|].
  by split.
Defined.

Lemma first_message_not_fresh :
  forall m, m ∈ messages_table demo_store ->
            Message.barter_request_id m <> Some "generated-0".
Proof.
  intros m Hm. change (messages_table demo_store) with [first_message] in Hm.
  by apply list_elem_of_singleton in Hm as ->.
Qed.

(** Bob proposes s1 for Alice's s2 with a note; Alice derives her list. *)
Lemma proposal_reaches_skill_owner_witness :
  let d' := handleProposeSwap (Some "bob")
              (demo_dialog "s1" (text_of " hi there ") []) in
  let st' := (fetchConversations
                (with_store (store (app d')) (demo_state "alice" []))).2 in
  exists c, c ∈ conversations (hook st') /\
            Conversation.id c = "generated-0" /\
            Conversation.participant_id c = "bob" /\
            Conversation.lastMessage c = Some (text_of "hi there").
Proof.
  apply (proposal_reaches_skill_owner "bob"
           (demo_dialog "s1" (text_of " hi there ") []) (demo_state "alice" [])
           "alice" (Profile.mk "bob" (Some "Bob") None)); try reflexivity.
  - vm_compute. discriminate.
  - vm_compute. discriminate.
  - apply first_message_not_fresh.
Defined.

(** Bob proposes s1 for s2 with a blank note, then asks the hook. *)
Lemma bootstrap_finds_proposed_swap_witness :
  let s' := store (app (handleProposeSwap (Some "bob")
                          (demo_dialog "s1" (text_of "   ") []))) in
  let result :=
    getOrCreateConversation "alice" None (with_store s' (demo_state "bob" [])) in
  result.1 = Some "generated-0" /\ contents (store result.2) = contents s'.
Proof.
  apply (bootstrap_finds_proposed_swap "bob"
           (demo_dialog "s1" (text_of "   ") []) (demo_state "bob" [])
           "alice" None); try reflexivity.
  - vm_compute. discriminate.
  - discriminate.
Defined.
